(** * currency-api: exchange-rate synchronisation, conversion and history

    A shallow embedding of [main.go]: the rate synchroniser [updateRates],
    the handlers [handleConvert], [handleHistory] and [handleSingleRate],
    together with the parts of the libraries they call
    (shopspring/decimal, the pgx transaction, net/http query values). *)

From Stdlib Require Import ZArith QArith Qabs Qround Qpower Qfield Lia Lqa Bool.
From Stdlib Require Import String Ascii List Permutation Sorted.
From stdpp Require Import base option gmap strings list sorting.

Local Open Scope Z_scope.

(* ===================================================================== *)
(** * shopspring/decimal                                                  *)
(* ===================================================================== *)

(** [decimal.Decimal] is [value * 10 ^ exp] with [value] a [big.Int] and
    [exp] an [int32].  A panic of the library is [None]. *)
Module decimal.

Record Decimal : Type := mkDecimal { value : Z; exp : Z }.

Definition DivisionPrecision : Z := 16.
Definition MinInt32 : Z := -2147483648.
Definition MaxInt32 : Z := 2147483647.

Definition int32_range (z : Z) : bool := (MinInt32 <=? z) && (z <=? MaxInt32).

(** The zero value [Decimal{}]: a nil [value] reads as 0. *)
Definition Zero : Decimal := mkDecimal 0 0.
Definition New (v e : Z) : Decimal := mkDecimal v e.
Definition NewFromInt (v : Z) : Decimal := mkDecimal v 0.

Definition Sign (d : Decimal) : Z := Z.sgn (value d).
Definition IsZero (d : Decimal) : bool := Sign d =? 0.
Definition Abs (d : Decimal) : Decimal := mkDecimal (Z.abs (value d)) (exp d).
Definition Neg (d : Decimal) : Decimal := mkDecimal (- value d) (exp d).

(** [rescale] truncates (big.Int.Quo) when the exponent grows. *)
Definition rescale (d : Decimal) (e : Z) : Decimal :=
  if exp d =? e then d
  else
    let diff := Z.abs (e - exp d) in
    let expScale := 10 ^ diff in
    if exp d <? e then mkDecimal (Z.quot (value d) expScale) e
    else mkDecimal (value d * expScale) e.

Definition RescalePair (d1 d2 : Decimal) : Decimal * Decimal :=
  if exp d1 =? exp d2 then (d1, d2)
  else
    let baseScale := Z.min (exp d1) (exp d2) in
    if negb (baseScale =? exp d1) then (rescale d1 baseScale, d2)
    else (d1, rescale d2 baseScale).

Definition Cmp (d d2 : Decimal) : comparison :=
  if exp d =? exp d2 then value d ?= value d2
  else let '(rd, rd2) := RescalePair d d2 in value rd ?= value rd2.

Definition Equal (d d2 : Decimal) : bool :=
  match Cmp d d2 with Eq => true | _ => false end.

Definition Add (d d2 : Decimal) : Decimal :=
  let '(rd, rd2) := RescalePair d d2 in mkDecimal (value rd + value rd2) (exp rd).

Definition Sub (d d2 : Decimal) : Decimal :=
  let '(rd, rd2) := RescalePair d d2 in mkDecimal (value rd - value rd2) (exp rd).

(** [Mul] panics when the sum of the exponents leaves int32. *)
Definition Mul (d d2 : Decimal) : option Decimal :=
  let expInt64 := exp d + exp d2 in
  if int32_range expInt64 then Some (mkDecimal (value d * value d2) expInt64)
  else None.

(** [QuoRem]: quotient truncated at [precision] digits and remainder;
    panics on a zero divisor and on exponent overflow. *)
Definition QuoRem (d d2 : Decimal) (precision : Z) : option (Decimal * Decimal) :=
  if Z.sgn (value d2) =? 0 then None
  else
    let scale := - precision in
    let e := exp d - exp d2 - scale in
    if negb (int32_range e) then None
    else
      let '(aa, bb, scalerest) :=
        if e <? 0 then (value d, value d2 * 10 ^ (- e), exp d)
        else (value d * 10 ^ e, value d2, scale + exp d2) in
      Some (mkDecimal (Z.quot aa bb) scale, mkDecimal (Z.rem aa bb) scalerest).

(** [DivRound]: the quotient at [precision] digits, a remainder of half a
    unit or more rounded away from zero. *)
Definition DivRound (d d2 : Decimal) (precision : Z) : option Decimal :=
  match QuoRem d d2 precision with
  | None => None
  | Some (q, r) =>
      let rv2 := Z.shiftl (Z.abs (value r)) 1 in
      let r2 := mkDecimal rv2 (exp r + precision) in
      match Cmp r2 (Abs d2) with
      | Lt => Some q
      | _ =>
          if Z.sgn (value d) * Z.sgn (value d2) <? 0
          then Some (Sub q (New 1 (- precision)))
          else Some (Add q (New 1 (- precision)))
      end
  end.

Definition Div (d d2 : Decimal) : option Decimal := DivRound d d2 DivisionPrecision.

(** [Round]: half away from zero at [places] digits. *)
Definition Round (d : Decimal) (places : Z) : Decimal :=
  if exp d =? - places then d
  else
    let ret := rescale d (- places - 1) in
    let v := if Z.sgn (value ret) <? 0 then value ret - 5 else value ret + 5 in
    let q := v / 10 in
    let m := v mod 10 in
    let q := if (Z.sgn q <? 0) && negb (m =? 0) then q + 1 else q in
    mkDecimal q (exp ret + 1).

(** ** Parsing: [NewFromString] *)

Definition is_digit (c : ascii) : bool :=
  let n := N.of_nat (nat_of_ascii c) in (48 <=? n)%N && (n <=? 57)%N.

Definition digit_val (c : ascii) : Z := Z.of_nat (nat_of_ascii c) - 48.

Fixpoint parse_digits (acc : Z) (s : string) : option Z :=
  match s with
  | EmptyString => Some acc
  | String c s' =>
      if is_digit c then parse_digits (10 * acc + digit_val c) s' else None
  end.

(** The common syntax of [strconv.ParseInt(s, 10, _)] and
    [big.Int.SetString(s, 10)]: an optional sign and at least one digit. *)
Definition parse_int (s : string) : option Z :=
  match s with
  | EmptyString => None
  | String c s' =>
      if Ascii.eqb c "+" then
        match s' with EmptyString => None | _ => parse_digits 0 s' end
      else if Ascii.eqb c "-" then
        match s' with
        | EmptyString => None
        | _ => option_map Z.opp (parse_digits 0 s')
        end
      else parse_digits 0 s
  end.

(** [strconv.ParseInt(s, 10, 32)]: a range error is an error as well. *)
Definition ParseInt32 (s : string) : option Z :=
  match parse_int s with
  | Some z => if int32_range z then Some z else None
  | None => None
  end.

(** [strings.IndexAny(s, "Ee")]. *)
Fixpoint IndexAny_Ee (s : string) : option nat :=
  match s with
  | EmptyString => None
  | String c s' =>
      if Ascii.eqb c "E" || Ascii.eqb c "e" then Some O
      else option_map S (IndexAny_Ee s')
  end.

Fixpoint count_dots (s : string) : nat :=
  match s with
  | EmptyString => O
  | String c s' => (if Ascii.eqb c "." then 1 else 0)%nat + count_dots s'
  end.

Fixpoint index_dot (s : string) : option nat :=
  match s with
  | EmptyString => None
  | String c s' => if Ascii.eqb c "." then Some O else option_map S (index_dot s')
  end.

Definition NewFromString (input : string) : option Decimal :=
  let split :=
    match IndexAny_Ee input with
    | Some eIndex =>
        match ParseInt32 (substring (S eIndex) (String.length input - S eIndex) input) with
        | Some expInt => Some (substring 0 eIndex input, expInt)
        | None => None
        end
    | None => Some (input, 0)
    end in
  match split with
  | None => None
  | Some (v, exp0) =>
      if (1 <? count_dots v)%nat then None
      else
        let vLen := String.length v in
        let '(intString, e) :=
          match index_dot v with
          | None => (v, exp0)
          | Some pIndex =>
              let frac := substring (S pIndex) (vLen - S pIndex) v in
              ((substring 0 pIndex v ++ frac)%string,
               exp0 - Z.of_nat (String.length frac))
          end in
        match parse_int intString with
        | None => None
        | Some dValue =>
            if int32_range e then Some (mkDecimal dValue e) else None
        end
  end.

(** ** Denotation *)

(** The number a [Decimal] stands for. *)
Definition toQ (d : Decimal) : Q := (inject_Z (value d) * 10 ^ exp d)%Q.

(** The integer nearest to [q], a tie going away from zero. *)
Definition nearest_away (q : Q) : Z :=
  if (Qnum q <? 0) then - Qfloor (- q + (1 # 2))%Q else Qfloor (q + (1 # 2))%Q.

(** [n / d] for [0 < d], to the nearest integer, a tie away from zero. *)
Definition Zround_away (n d : Z) : Z := Z.sgn n * ((2 * Z.abs n + d) / (2 * d)).

(** [q] rounded half away from zero to [places] fractional digits. *)
Definition Qround_away (places : Z) (q : Q) : Q :=
  (inject_Z (nearest_away (q * 10 ^ places)) * 10 ^ (- places))%Q.

End decimal.

Import decimal.

(* ===================================================================== *)
(** * The Go runtime and the libraries around [main.go]                   *)
(* ===================================================================== *)

(** An instant ([time.Time], [TIMESTAMP WITH TIME ZONE]) in microseconds. *)
Definition Time : Type := Z.

(** What [main.go] takes from outside and is not fixed by its text:
    the float64 of the provider's quotes and the numeric that the driver
    and a [DECIMAL(18, 8)] column make of it, [strings.ToUpper] beyond
    ASCII, and the server's reading of a timestamp literal. *)
Class Runtime : Type := {
  float64 : Type;
  numeric_of_float64 : float64 -> Decimal;
  ToUpper : string -> string;
  timestamptz_of_string : string -> option Time
}.

(** [strings.ToUpper] on an ASCII string: the bytes a..z lose 32. *)
Definition upper_byte (c : ascii) : ascii :=
  let n := nat_of_ascii c in
  if (97 <=? n)%nat && (n <=? 122)%nat then ascii_of_nat (n - 32) else c.

Fixpoint ToUpperASCII (s : string) : string :=
  match s with
  | EmptyString => EmptyString
  | String c s' => String (upper_byte c) (ToUpperASCII s')
  end.

(** [t.Format(time.RFC3339)]: the layout "2006-01-02T15:04:05Z07:00" has
    no fraction of a second, so the string names the whole second in which
    [t] lies; it is given here as that second, counted from the epoch. *)
Definition Format_RFC3339 (t : Time) : Z := t / 1000000.

(** A string without its trailing blanks. *)
Fixpoint rtrim (s : string) : string :=
  match s with
  | EmptyString => EmptyString
  | String c s' =>
      match rtrim s' with
      | EmptyString => if Ascii.eqb c " " then EmptyString else String c EmptyString
      | t => String c t
      end
  end.

(** [=] on [CHAR(n)] values: trailing blanks are disregarded. *)
Definition bpchar_eqb (a b : string) : bool := String.eqb (rtrim a) (rtrim b).

(** [strings.TrimPrefix]. *)
Definition TrimPrefix (s prefix : string) : string :=
  if String.prefix prefix s
  then substring (String.length prefix) (String.length s - String.length prefix) s
  else s.

(* ===================================================================== *)
(** * The Rate Store                                                      *)
(* ===================================================================== *)

(** A row of [exchange_rates] without its key [currency_code]. *)
Record RateRow : Type := mkRateRow {
  rate_to_base : Decimal;
  updated_at : Time
}.

(** A row of [rate_history]; the SERIAL [id] is never read. *)
Record HistoryRow : Type := mkHistoryRow {
  currency_code : string;
  rate : Decimal;
  recorded_at : Time
}.

(** The two tables: [exchange_rates] keyed by its primary key, and
    [rate_history] in insertion order. *)
Record Database : Type := mkDatabase {
  exchange_rates : gmap string RateRow;
  rate_history : list HistoryRow
}.

Definition empty_database : Database := mkDatabase ∅ [].

(* ===================================================================== *)
(** * The Rate Synchroniser: [updateRates]                                *)
(* ===================================================================== *)

Section Synchroniser.
Context {RT : Runtime}.

Record APIResponse : Type := mkAPIResponse {
  Success : bool;
  Timestamp : Z;
  Quotes : gmap string float64
}.

(** The two statements of the loop body, with their arguments. *)
Inductive Stmt : Type :=
| UpsertRate (code : string) (rate : float64)
| InsertHistory (code : string) (rate : float64).

(** [NOW()] is the start time of the transaction for both statements. *)
Definition apply_stmt (now : Time) (st : Stmt) (db : Database) : Database :=
  match st with
  | UpsertRate code rate =>
      mkDatabase (<[code := mkRateRow (numeric_of_float64 rate) now]> (exchange_rates db))
                 (rate_history db)
  | InsertHistory code rate =>
      mkDatabase (exchange_rates db)
                 (rate_history db ++ [mkHistoryRow code (numeric_of_float64 rate) now])
  end.

(** [http.Get] followed by [json.NewDecoder(resp.Body).Decode]. *)
Inductive Fetched : Type :=
| NetworkError
| JSONError
| Decoded (data : APIResponse).

(** The order in which [range] visits a Go map: any order. *)
Record MapRange : Type := mkMapRange {
  range_of :> gmap string float64 -> list (string * float64);
  range_perm : forall m, range_of m ≡ₚ map_to_list m
}.

(** One run of [updateRates] as the world serves it. [exec_ok n] tells
    whether the server accepts the [n]-th statement sent in the
    transaction. *)
Record SyncEnv : Type := mkSyncEnv {
  fetched : Fetched;
  range : MapRange;
  begin_ok : bool;
  exec_ok : nat -> bool;
  commit_ok : bool;
  now : Time
}.

(** A pgx transaction on PostgreSQL: the statements work on a private
    copy that no reader sees; a failed statement aborts the transaction,
    after which every statement fails and COMMIT rolls back. [tx_sent]
    counts the statements sent. *)
Inductive TxStatus : Type := TxOpen | TxAborted.

Record Tx : Type := mkTx {
  tx_db : Database;
  tx_status : TxStatus;
  tx_sent : nat
}.

Definition tx_Begin (db : Database) : Tx := mkTx db TxOpen 0.

(** [tx.Exec]; the caller drops the error. *)
Definition tx_Exec (env : SyncEnv) (st : Stmt) (tx : Tx) : Tx :=
  match tx_status tx with
  | TxOpen =>
      if exec_ok env (tx_sent tx)
      then mkTx (apply_stmt (now env) st (tx_db tx)) TxOpen (S (tx_sent tx))
      else mkTx (tx_db tx) TxAborted (S (tx_sent tx))
  | TxAborted => mkTx (tx_db tx) TxAborted (S (tx_sent tx))
  end.

(** [tx.Commit], then the deferred [tx.Rollback]: the committed database. *)
Definition tx_Commit (env : SyncEnv) (tx : Tx) (db : Database) : Database :=
  match tx_status tx with
  | TxOpen => if commit_ok env then tx_db tx else db
  | TxAborted => db
  end.

(** The body of [for pair, rate := range data.Quotes]. *)
Definition sync_entry (env : SyncEnv) (tx : Tx) (entry : string * float64) : Tx :=
  let '(pair_symbol, rate) := entry in
  let code := TrimPrefix pair_symbol "USD" in
  if String.eqb code "" || negb (String.length code =? 3)%nat then tx
  else tx_Exec env (InsertHistory code rate) (tx_Exec env (UpsertRate code rate) tx).

Definition updateRates (env : SyncEnv) (db : Database) : Database :=
  match fetched env with
  | NetworkError => db
  | JSONError => db
  | Decoded data =>
      if negb (begin_ok env) then db
      else
        let tx := fold_left (sync_entry env) (range env (Quotes data)) (tx_Begin db) in
        tx_Commit env tx db
  end.

(** The entries of a snapshot that the loop does not skip, as
    (code, rate). *)
Definition kept (entry : string * float64) : bool :=
  negb (String.eqb (TrimPrefix entry.1 "USD") "" ||
        negb (String.length (TrimPrefix entry.1 "USD") =? 3)%nat).

Definition applied_entries (l : list (string * float64)) : list (string * float64) :=
  map (fun e => (TrimPrefix e.1 "USD", e.2)) (filter (fun e => kept e = true) l).

(** The statements a run sends for the entries [l]. *)
Definition statements (l : list (string * float64)) : list Stmt :=
  flat_map (fun e => [UpsertRate e.1 e.2; InsertHistory e.1 e.2]) (applied_entries l).

(** A cycle applied in full. *)
Definition apply_all (now : Time) (l : list (string * float64)) (db : Database) : Database :=
  fold_left (fun d st => apply_stmt now st d) (statements l) db.

End Synchroniser.

(* ===================================================================== *)
(** * The handlers                                                        *)
(* ===================================================================== *)

Section Handlers.
Context {RT : Runtime}.

(** The connection pool a handler reads through: the committed database,
    and whether a connection can be had. *)
Record Pool : Type := mkPool {
  pool_db : Database;
  pool_up : bool
}.

(** The WHERE clause of the history query; [param] is the number in
    [$param]. *)
Inductive Cond : Type :=
| CurrencyCodeEq (param : nat)
| RecordedAtGe (param : nat)
| RecordedAtLe (param : nat).

(** [SELECT rate, recorded_at FROM rate_history WHERE ...
     ORDER BY recorded_at DESC LIMIT limit] with its arguments. *)
Record HistoryQuery : Type := mkHistoryQuery {
  where_ : list Cond;
  args : list string;
  limit : nat
}.

(** The statements the handlers send. *)
Inductive SqlCall : Type :=
| SelectRate (code : string)
| SelectRateUpdated (code : string)
| SelectHistory (q : HistoryQuery).

(** An entry of the history response: [code], [rate.Round(6)] and
    [date.Format(time.RFC3339)], the second the printed date names. *)
Record HistoryItem : Type := mkHistoryItem {
  item_code : string;
  item_rate : Decimal;
  item_date : Z
}.

Inductive Body : Type :=
| ConvertBody (from to : string) (amount result : Decimal)
| HistoryBody (results : list HistoryItem)
| RateBody (code : string) (rate : Decimal) (base : string) (updated : Time).

(** What the client gets: a JSON body with status 200, [http.Error], or
    nothing when the handler panics. *)
Inductive Response : Type :=
| Json (body : Body)
| HttpError (message : string) (status : Z)
| Panicked.

(** A handled request: the response and the statements sent for it. *)
Record Handled : Type := mkHandled {
  response : Response;
  queries : list SqlCall
}.

(** [QueryRow("SELECT rate_to_base FROM exchange_rates WHERE
    currency_code=$1", code).Scan(&rate)]: [None] is a non-nil error, be
    it a missing row or a missing connection. The column is [CHAR(3)], so
    the row found is the one whose code equals [code] with trailing blanks
    disregarded; the primary key admits one such row, and a stored code
    identical to [code] is that row. *)
Definition QueryRow_rate (pool : Pool) (code : string) : option Decimal :=
  if pool_up pool then
    match exchange_rates (pool_db pool) !! code with
    | Some row => Some (rate_to_base row)
    | None =>
        (fun kr : string * RateRow => rate_to_base kr.2) <$>
          head (List.filter (fun kr : string * RateRow => bpchar_eqb kr.1 code)
                  (map_to_list (exchange_rates (pool_db pool))))
    end
  else None.

(** [QueryRow("SELECT rate_to_base, updated_at FROM exchange_rates WHERE
    currency_code=$1", code).Scan(&rate, &updated)]. Its caller sends a
    code of three bytes; among stored codes of three bytes the one equal
    to it as a [CHAR(3)] value is the code itself. *)
Definition QueryRow_rate_updated (pool : Pool) (code : string) : option (Decimal * Time) :=
  if pool_up pool
  then (fun r => (rate_to_base r, updated_at r)) <$> exchange_rates (pool_db pool) !! code
  else None.

Definition param (args : list string) (n : nat) : option string :=
  match n with
  | O => None
  | S i => args !! i
  end.

(** A condition with its parameter read: a predicate on rows. The outer
    [None] is a missing parameter, the inner one a timestamp the server
    cannot read. *)
Definition bind_cond (args : list string) (c : Cond)
  : option (option (HistoryRow -> bool)) :=
  match c with
  | CurrencyCodeEq n =>
      match param args n with
      | None => None
      | Some a => Some (Some (fun r => String.eqb (currency_code r) a))
      end
  | RecordedAtGe n =>
      match param args n with
      | None => None
      | Some a =>
          Some (match timestamptz_of_string a with
                | None => None
                | Some t => Some (fun r => t <=? recorded_at r)
                end)
      end
  | RecordedAtLe n =>
      match param args n with
      | None => None
      | Some a =>
          Some (match timestamptz_of_string a with
                | None => None
                | Some t => Some (fun r => recorded_at r <=? t)
                end)
      end
  end.

Fixpoint insert_desc (r : HistoryRow) (l : list HistoryRow) : list HistoryRow :=
  match l with
  | [] => [r]
  | x :: l' =>
      if recorded_at x <? recorded_at r then r :: x :: l' else x :: insert_desc r l'
  end.

(** [ORDER BY recorded_at DESC]; SQL leaves the order of rows with equal
    [recorded_at] open, here they keep their table order. *)
Definition order_by_recorded_at_desc (l : list HistoryRow) : list HistoryRow :=
  foldr insert_desc [] l.

Inductive QueryResult : Type :=
| QueryErr
| Rows (rows : list HistoryRow).

(** [app.DB.Query(ctx, query, args...)] followed by the [rows.Next()] loop.
    [Query] returns an error when no connection can be had or the
    arguments do not fit the statement; an error of the server while it
    runs the statement (a timestamp it cannot read) comes with
    [rows.Next()], which is then false at once. *)
Definition Query_history (pool : Pool) (q : HistoryQuery) : QueryResult :=
  if negb (pool_up pool) then QueryErr
  else
    match mapM (bind_cond (args q)) (where_ q) with
    | None => QueryErr
    | Some bound =>
        match mapM id bound with
        | None => Rows []
        | Some preds =>
            Rows (take (limit q)
                    (order_by_recorded_at_desc
                       (List.filter (fun r => forallb (fun p => p r) preds)
                          (rate_history (pool_db pool)))))
        end
    end.

Definition handleConvert (pool : Pool) (q_from q_to q_amount : string) : Handled :=
  let from := ToUpper q_from in
  let to := ToUpper q_to in
  let amount := default Zero (NewFromString q_amount) in
  let amount := if IsZero amount then NewFromInt 1 else amount in
  let err1 := QueryRow_rate pool from in
  let err2 := QueryRow_rate pool to in
  mkHandled
    match err1, err2 with
    | Some rateFrom, Some rateTo =>
        match Mul amount rateTo ≫= (fun p => Div p rateFrom) with
        | Some result => Json (ConvertBody from to amount (Round result 4))
        | None => Panicked
        end
    | _, _ => HttpError "Divisa no encontrada" 404
    end
    [SelectRate from; SelectRate to].

Definition handleHistory (pool : Pool) (q_code q_start q_end : string) : Handled :=
  let code := ToUpper q_code in
  let start := q_start in
  let end_ := q_end in
  if negb (String.length code =? 3)%nat
  then mkHandled (HttpError "Se requiere código de moneda (parámetro 'code')" 400) []
  else
    let query := [CurrencyCodeEq 1] in
    let args := [code] in
    let argCount := 2%nat in
    let '(query, args, argCount) :=
      if negb (String.eqb start "")
      then (query ++ [RecordedAtGe argCount], args ++ [start], S argCount)
      else (query, args, argCount) in
    let '(query, args, argCount) :=
      if negb (String.eqb end_ "")
      then (query ++ [RecordedAtLe argCount], args ++ [end_], S argCount)
      else (query, args, argCount) in
    let q := mkHistoryQuery query args 100 in
    mkHandled
      match Query_history pool q with
      | QueryErr => HttpError "Error interno" 500
      | Rows rows =>
          Json (HistoryBody
                  (map (fun r => mkHistoryItem code (Round (rate r) 6)
                                  (Format_RFC3339 (recorded_at r))) rows))
      end
      [SelectHistory q].

Definition handleSingleRate (pool : Pool) (path : string) : Handled :=
  let code := ToUpper (TrimPrefix path "/rates/") in
  if negb (String.length code =? 3)%nat
  then mkHandled (HttpError "Código inválido" 400) []
  else
    mkHandled
      match QueryRow_rate_updated pool code with
      | None => HttpError "No encontrado" 404
      | Some (rate, updated) => Json (RateBody code (Round rate 6) "USD" updated)
      end
      [SelectRateUpdated code].

End Handlers.

(* ===================================================================== *)
(** * Vocabulary of the statements, and data for the examples            *)
(* ===================================================================== *)

Section CycleOutcome.
Context {RT : Runtime}.

(** [tx.Exec] as a step of the transaction. *)
Definition exec_stmt (env : SyncEnv) (tx : Tx) (st : Stmt) : Tx := tx_Exec env st tx.

(** The rows a kept entry writes. *)
Definition rate_row_of (now : Time) (e : string * float64) : RateRow :=
  mkRateRow (numeric_of_float64 e.2) now.

Definition history_row_of (now : Time) (e : string * float64) : HistoryRow :=
  mkHistoryRow e.1 (numeric_of_float64 e.2) now.

(** The upserts of the entries [l], in order, on the current rates. *)
Definition upsert_all (now : Time) (l : list (string * float64))
    (m : gmap string RateRow) : gmap string RateRow :=
  fold_left (fun m e => <[e.1 := rate_row_of now e]> m) l m.

(** Every step of the cycle succeeds. *)
Definition cycle_ok (env : SyncEnv) : Prop :=
  exists data, fetched env = Decoded data /\ begin_ok env = true /\
    commit_ok env = true /\
    forall i, (i < length (statements (range env (Quotes data))))%nat -> exec_ok env i = true.

(** The statements one run sends, in order. *)
Definition sent_statements (env : SyncEnv) : list Stmt :=
  match fetched env with
  | Decoded data => statements (range env (Quotes data))
  | _ => []
  end.

(** Some step of the cycle fails: the fetch, the decoding, the opening of
    the transaction, one of the statements sent, or the commit. *)
Definition cycle_failed (env : SyncEnv) : Prop :=
  match fetched env with
  | NetworkError => True
  | JSONError => True
  | Decoded data =>
      begin_ok env = false \/
      (exists n, (n < length (sent_statements env))%nat /\ exec_ok env n = false) \/
      commit_ok env = false
  end.

(** The cycle applied in full to [db]. *)
Definition fully_applied (env : SyncEnv) (db : Database) : Database :=
  match fetched env with
  | Decoded data => apply_all (now env) (range env (Quotes data)) db
  | _ => db
  end.

End CycleOutcome.

(** The amount [handleConvert] computes with: the parsed parameter, or 1
    when it is absent, unreadable or zero. *)
Definition amount_of (q_amount : string) : Decimal :=
  let amount := default Zero (NewFromString q_amount) in
  if IsZero amount then NewFromInt 1 else amount.

(** The rates hold the row [row] for the code [code]: a stored code equals
    [code] as a [CHAR(3)] value. *)
Definition stored_rate (rates : gmap string RateRow) (code : string) (row : RateRow) : Prop :=
  exists c, rates !! c = Some row /\ bpchar_eqb c code = true.

(** The rates hold no row for [code]. *)
Definition no_stored_rate (rates : gmap string RateRow) (code : string) : Prop :=
  forall c row, rates !! c = Some row -> bpchar_eqb c code = false.

(** The stored codes are three bytes long, as [updateRates] writes them. *)
Definition three_byte_codes (rates : gmap string RateRow) : Prop :=
  forall c row, rates !! c = Some row -> String.length c = 3%nat.

(** Neither [Mul] nor [QuoRem] leaves the int32 range of exponents. *)
Definition no_overflow (amount rateFrom rateTo : Decimal) : bool :=
  int32_range (exp amount + exp rateTo) &&
  int32_range (exp amount + exp rateTo - exp rateFrom - - DivisionPrecision).

(** [amount * rate_to(to) / rate_to(from)] as a rational number. *)
Definition exact_quotient (amount rateFrom rateTo : Decimal) : Q :=
  (toQ amount * toQ rateTo / toQ rateFrom)%Q.

(** The quotient rounded to 16 digits and then to 4, as a [Decimal] with
    exponent -4. *)
Definition convert_value (amount rateFrom rateTo : Decimal) : Decimal :=
  mkDecimal
    (nearest_away (Qround_away 16 (exact_quotient amount rateFrom rateTo) * 10 ^ 4)%Q) (-4).

(** Half a unit of the fourth digit plus half a unit of the sixteenth. *)
Definition rounding_error : Q := ((1 # 2) * 10 ^ (-4) + (1 # 2) * 10 ^ (-16))%Q.

Section HistoryVocabulary.
Context {RT : Runtime}.

(** The rows [queryHistory(code, start, end)] is to return, in the words
    of the specification: those of [code] with
    [start <= recorded_at <= end], each bound applying only when it is
    supplied (the empty string is an absent bound). *)
Definition in_window (code start end_ : string) (r : HistoryRow) : bool :=
  String.eqb (currency_code r) code &&
  (if String.eqb start "" then true
   else match timestamptz_of_string start with
        | Some t => t <=? recorded_at r
        | None => false
        end) &&
  (if String.eqb end_ "" then true
   else match timestamptz_of_string end_ with
        | Some t => recorded_at r <=? t
        | None => false
        end).

(** Newest first. *)
Definition newer_first (r1 r2 : HistoryRow) : Prop := recorded_at r2 <= recorded_at r1.

(** The entry of the response for a row of the query. *)
Definition item_of_row (code : string) (r : HistoryRow) : HistoryItem :=
  mkHistoryItem code (Round (rate r) 6) (Format_RFC3339 (recorded_at r)).

(** Printed dates, the later one first. *)
Definition later_first (i1 i2 : HistoryItem) : Prop := item_date i2 <= item_date i1.

End HistoryVocabulary.

(** An ASCII letter. *)
Definition is_letter (c : ascii) : bool :=
  let n := nat_of_ascii c in
  ((65 <=? n)%nat && (n <=? 90)%nat) || ((97 <=? n)%nat && (n <=? 122)%nat).

(** A code of exactly three letters. *)
Definition three_letters (s : string) : bool :=
  (String.length s =? 3)%nat && forallb is_letter (list_ascii_of_string s).

(** A code of exactly three upper-case letters. *)
Definition is_upper_letter (c : ascii) : bool :=
  let n := nat_of_ascii c in (65 <=? n)%nat && (n <=? 90)%nat.

Definition three_upper_letters (s : string) : bool :=
  (String.length s =? 3)%nat && forallb is_upper_letter (list_ascii_of_string s).

(** A numeric(18, 8) from a rational: eight digits, half away from zero. *)
Definition numeric8_of_Q (q : Q) : Decimal :=
  mkDecimal (nearest_away (q * 10 ^ 8)%Q) (-8).

(** The runtime of the examples: quotes are rationals, codes are ASCII,
    and a timestamp literal is a count of microseconds. *)
Definition example_runtime : Runtime :=
  {| float64 := Q;
     numeric_of_float64 := numeric8_of_Q;
     ToUpper := ToUpperASCII;
     timestamptz_of_string := parse_int |}.

(** [range] in the order of [map_to_list]. *)
Definition range_in_order : @MapRange example_runtime :=
  @mkMapRange example_runtime map_to_list (fun m => Permutation_refl _).

(** [range] in the opposite order. *)
Definition range_reversed : @MapRange example_runtime :=
  @mkMapRange example_runtime (fun m => rev (map_to_list m))
    (fun m => Permutation_sym (Permutation_rev (map_to_list m))).

(** The snapshot [{"USDEUR": 0.9, "USDJPY": 150.0}], and one with entries
    the loop skips or keeps for their length alone. *)
Definition quotes_eur_jpy : gmap string Q :=
  <["USDEUR" := 0.9%Q]> (<["USDJPY" := 150%Q]> ∅).

Definition quotes_mixed : gmap string Q :=
  <["USD123" := 2%Q]> (<["USDXX" := 3%Q]> (<["USD" := 1%Q]> quotes_eur_jpy)).

(** A snapshot whose one symbol leaves three digits, and one whose symbol
    leaves the euro sign: one character, three bytes in UTF-8. *)
Definition quotes_digits : gmap string Q := <["USD123" := 2%Q]> ∅.

Definition quotes_euro_sign : gmap string Q := <["USD€" := 2%Q]> ∅.

(** The characters of a UTF-8 string: its bytes other than continuation
    bytes (10xxxxxx). *)
Definition utf8_characters (s : string) : nat :=
  length (List.filter (fun c => let n := nat_of_ascii c in (n <? 128)%nat || (192 <=? n)%nat)
            (list_ascii_of_string s)).

Definition response_of (success : bool) (quotes : gmap string Q) : @APIResponse example_runtime :=
  @mkAPIResponse example_runtime success 1700000000 quotes.

Definition env_ok (rg : @MapRange example_runtime) (quotes : gmap string Q) (success : bool)
  : @SyncEnv example_runtime :=
  @mkSyncEnv example_runtime
    (@Decoded example_runtime (response_of success quotes))
    rg true (fun _ => true) true 1700000000000000.

(** The second statement of the transaction is refused. *)
Definition env_second_fails : @SyncEnv example_runtime :=
  @mkSyncEnv example_runtime
    (@Decoded example_runtime (response_of true quotes_eur_jpy))
    range_in_order true (fun n => negb (n =? 1)%nat) true 1700000000000000.

Definition rate_row (v : Z) (t : Time) : RateRow := mkRateRow (mkDecimal v (-8)) t.

(** A store with EUR at 0.9, JPY at 150 and GBP at 0.8 per USD. *)
Definition db_example : Database :=
  mkDatabase
    (<["EUR" := rate_row 90000000 100]>
       (<["JPY" := rate_row 15000000000 100]>
          (<["GBP" := rate_row 80000000 100]> ∅)))
    [mkHistoryRow "EUR" (mkDecimal 91000000 (-8)) 50;
     mkHistoryRow "JPY" (mkDecimal 14900000000 (-8)) 50;
     mkHistoryRow "EUR" (mkDecimal 90000000 (-8)) 100;
     mkHistoryRow "EUR" (mkDecimal 90500000 (-8)) 75].

Definition pool_example : Pool := mkPool db_example true.

(** A store whose history rows of EUR lie at 1.2 s, 2.5 s, 7.25 s and
    9 s after the epoch, and one of JPY at 3 s. *)
Definition db_seconds : Database :=
  mkDatabase
    (<["EUR" := rate_row 90000000 9000000]> (<["JPY" := rate_row 15000000000 3000000]> ∅))
    [mkHistoryRow "EUR" (mkDecimal 92000000 (-8)) 1200000;
     mkHistoryRow "EUR" (mkDecimal 91000000 (-8)) 2500000;
     mkHistoryRow "JPY" (mkDecimal 15000000000 (-8)) 3000000;
     mkHistoryRow "EUR" (mkDecimal 90500000 (-8)) 7250000;
     mkHistoryRow "EUR" (mkDecimal 90000000 (-8)) 9000000].

Definition pool_seconds : Pool := mkPool db_seconds true.

(** Two rates of eight digits whose quotient lies just under 0.00005, and
    a rate of zero. *)
Definition db_edge : Database :=
  mkDatabase
    (<["AAA" := rate_row 40000000000000000 100]>
       (<["BBB" := rate_row 1999999999999 100]>
          (<["ZZZ" := rate_row 0 100]> ∅)))
    [].

Definition pool_edge : Pool := mkPool db_edge true.


(* ===================================================================== *)
(** * The worker, the latest rates, and invariants of the store           *)
(* ===================================================================== *)

Section Worker.
Context {RT : Runtime}.

(** What the [select] of [startDailyWorker] receives: a tick of the
    ticker, with the world of the cycle it starts, or the end of the
    context. *)
Inductive WorkerEvent : Type :=
| Tick (env : SyncEnv)
| Done.

(** [for { select { case <-ticker.C: app.updateRates(ctx)
                    case <-ctx.Done(): return } }] on the events received. *)
Fixpoint worker_loop (events : list WorkerEvent) (db : Database) : Database :=
  match events with
  | [] => db
  | Tick env :: rest => worker_loop rest (updateRates env db)
  | Done :: _ => db
  end.

(** [startDailyWorker]: one cycle at once, then the loop. *)
Definition startDailyWorker (first : SyncEnv) (events : list WorkerEvent)
    (db : Database) : Database :=
  worker_loop events (updateRates first db).

(** The two rows one kept entry writes, as one step. *)
Definition apply_entry (now : Time) (db : Database) (e : string * float64) : Database :=
  mkDatabase (<[e.1 := rate_row_of now e]> (exchange_rates db))
             (rate_history db ++ [history_row_of now e]).

(** [range] in the order of [map_to_list], and in the opposite order. *)
Definition range_forward : MapRange :=
  mkMapRange map_to_list (fun m => Permutation_refl _).

Definition range_backward : MapRange :=
  mkMapRange (fun m => rev (map_to_list m))
    (fun m => Permutation_sym (Permutation_rev (map_to_list m))).

(** The snapshot [quotes] writes the code [c]: one of its symbols leaves
    [c], three bytes long. *)
Definition writes_code (quotes : gmap string float64) (c : string) : Prop :=
  exists p r, quotes !! p = Some r /\ TrimPrefix p "USD" = c /\ String.length c = 3%nat.

(** No two symbols of the snapshot leave the same code. *)
Definition distinct_codes (quotes : gmap string float64) : Prop :=
  forall p p' r r', quotes !! p = Some r -> quotes !! p' = Some r' ->
    TrimPrefix p "USD" = TrimPrefix p' "USD" -> p = p'.

End Worker.

(** Every stored code is three bytes long. *)
Definition codes_three_bytes (db : Database) : Prop :=
  (forall c row, exchange_rates db !! c = Some row -> String.length c = 3%nat) /\
  Forall (fun h => String.length (currency_code h) = 3%nat) (rate_history db).

(** The history row of [c] inserted last. *)
Definition latest_of (c : string) (history : list HistoryRow) : option HistoryRow :=
  last (filter (fun h => currency_code h = c) history).

(** The current rate of every code is the rate and the time of its
    history row inserted last, and a code without history has no current
    rate. *)
Definition tables_agree (db : Database) : Prop :=
  forall c, exchange_rates db !! c =
            (fun h => mkRateRow (rate h) (recorded_at h)) <$> latest_of c (rate_history db).

Section Latest.
Context {RT : Runtime}.

(** The order in which a SELECT without ORDER BY returns the rows of
    [exchange_rates]: any order. *)
Record TableScan : Type := mkTableScan {
  scan_of :> gmap string RateRow -> list (string * RateRow);
  scan_perm : forall m, scan_of m ≡ₚ map_to_list m
}.

Fixpoint blanks (n : nat) : string :=
  match n with
  | O => EmptyString
  | S n' => String " " (blanks n')
  end.

(** A [CHAR(3)] value as the server returns it: padded with blanks to
    three characters. *)
Definition bpchar3 (s : string) : string :=
  (s ++ blanks (3 - utf8_characters s))%string.

(** The value of a code in the response of [handleLatest]:
    [rate.Round(6)] and [updated]. *)
Definition latest_entry (row : RateRow) : Decimal * Time :=
  (Round (rate_to_base row) 6, updated_at row).

Inductive LatestResponse : Type :=
| LatestJson (base : string) (rates : gmap string (Decimal * Time))
| LatestError (message : string) (status : Z).

(** [app.DB.Query(ctx, "SELECT currency_code, rate_to_base, updated_at
    FROM exchange_rates")]: the rows as [rows.Scan] reads them, or an
    error. *)
Definition Query_rates (scan : TableScan) (pool : Pool)
  : option (list (string * Decimal * Time)) :=
  if pool_up pool
  then Some (map (fun cr => (bpchar3 cr.1, rate_to_base cr.2, updated_at cr.2))
               (scan (exchange_rates (pool_db pool))))
  else None.

Definition handleLatest (scan : TableScan) (pool : Pool) : LatestResponse :=
  match Query_rates scan pool with
  | None => LatestError "Error DB" 500
  | Some rows =>
      let rates :=
        fold_left
          (fun (rates : gmap string (Decimal * Time)) (row : string * Decimal * Time) =>
             let '(code, rate, updated) := row in
             <[code := (Round rate 6, updated)]> rates)
          rows ∅ in
      LatestJson "USD" rates
  end.

End Latest.

(** A table scan in the order of [map_to_list], and one in the opposite
    order. *)
Definition scan_in_order : TableScan :=
  mkTableScan map_to_list (fun m => Permutation_refl _).

Definition scan_reversed : TableScan :=
  mkTableScan (fun m => rev (map_to_list m))
    (fun m => Permutation_sym (Permutation_rev (map_to_list m))).

(** The example store after a cycle with the snapshot of EUR and JPY. *)
Definition env_eur_jpy : @SyncEnv example_runtime := env_ok range_in_order quotes_eur_jpy true.

Definition db_after_cycle : Database := @updateRates example_runtime env_eur_jpy empty_database.

(** The cycle of the day before: the same symbols at 0.85 and 140. *)
Definition quotes_earlier : gmap string Q :=
  <["USDEUR" := 0.85%Q]> (<["USDJPY" := 140%Q]> ∅).

Definition env_earlier : @SyncEnv example_runtime :=
  @mkSyncEnv example_runtime
    (@Decoded example_runtime (@mkAPIResponse example_runtime true 1699913600 quotes_earlier))
    range_in_order true (fun _ => true) true 1699913600000000.

(** A snapshot whose one symbol leaves a code in lower case. *)
Definition quotes_lower : gmap string Q := <["USDeur" := 0.9%Q]> ∅.
(* ===================================================================== *)
(** * Properties of the synchroniser                                      *)
(* ===================================================================== *)

Section SynchroniserFacts.
Context {RT : Runtime}.

Lemma applied_entries_cons (e : string * float64) (l : list (string * float64)) :
  applied_entries (e :: l) =
  if kept e then (TrimPrefix e.1 "USD", e.2) :: applied_entries l else applied_entries l.
Proof.
  unfold applied_entries. rewrite filter_cons.
  destruct (kept e); case_decide; simpl; congruence.
Qed.

Lemma statements_cons (e : string * float64) (l : list (string * float64)) :
  statements (e :: l) =
  if kept e
  then UpsertRate (TrimPrefix e.1 "USD") e.2 :: InsertHistory (TrimPrefix e.1 "USD") e.2 :: statements l
  else statements l.
Proof.
  unfold statements. rewrite applied_entries_cons. destruct (kept e); reflexivity.
Qed.

(** The loop sends the statements of the entries it keeps, in order. *)
Lemma loop_as_statements (env : SyncEnv) (l : list (string * float64)) (tx : Tx) :
  fold_left (sync_entry env) l tx = fold_left (exec_stmt env) (statements l) tx.
Proof.
  revert tx. induction l as [|[p r] l IH]; intros tx; [reflexivity|].
  rewrite statements_cons. cbn [fold_left]. rewrite IH.
  unfold sync_entry, kept. cbn [fst snd].
  destruct (String.eqb (TrimPrefix p "USD") "" || negb (String.length (TrimPrefix p "USD") =? 3)%nat);
    reflexivity.
Qed.

(** An aborted transaction stays aborted and keeps its copy. *)
Lemma aborted_stays (env : SyncEnv) (sts : list Stmt) (tx : Tx) :
  tx_status tx = TxAborted ->
  tx_status (fold_left (exec_stmt env) sts tx) = TxAborted.
Proof.
  revert tx. induction sts as [|st sts IH]; intros tx H; [exact H|].
  cbn [fold_left]. apply IH. unfold exec_stmt, tx_Exec. rewrite H. reflexivity.
Qed.

(** Every statement accepted: the transaction holds the full application. *)
Lemma all_accepted (env : SyncEnv) (sts : list Stmt) (tx : Tx) :
  tx_status tx = TxOpen ->
  (forall i, (i < length sts)%nat -> exec_ok env (tx_sent tx + i) = true) ->
  fold_left (exec_stmt env) sts tx =
  mkTx (fold_left (fun d st => apply_stmt (now env) st d) sts (tx_db tx)) TxOpen
       (tx_sent tx + length sts).
Proof.
  revert tx. induction sts as [|st sts IH]; intros tx Ho Hok.
  - cbn. destruct tx as [d s n]. cbn in *. subst. f_equal. lia.
  - cbn [fold_left]. rewrite IH.
    + unfold exec_stmt, tx_Exec. rewrite Ho.
      pose proof (Hok 0%nat ltac:(cbn; lia)) as H0. rewrite Nat.add_0_r in H0. rewrite H0.
      cbn. f_equal. lia.
    + unfold exec_stmt, tx_Exec. rewrite Ho.
      pose proof (Hok 0%nat ltac:(cbn; lia)) as H0. rewrite Nat.add_0_r in H0. rewrite H0.
      reflexivity.
    + intros i Hi. unfold exec_stmt, tx_Exec. rewrite Ho.
      pose proof (Hok 0%nat ltac:(cbn; lia)) as H0. rewrite Nat.add_0_r in H0. rewrite H0.
      cbn [tx_sent]. replace (S (tx_sent tx) + i)%nat with (tx_sent tx + S i)%nat by lia.
      apply Hok. cbn. lia.
Qed.

(** One statement refused: the transaction ends aborted. *)
Lemma one_refused (env : SyncEnv) (sts : list Stmt) (tx : Tx) (i : nat) :
  (i < length sts)%nat -> exec_ok env (tx_sent tx + i) = false ->
  tx_status (fold_left (exec_stmt env) sts tx) = TxAborted.
Proof.
  revert tx i. induction sts as [|st sts IH]; intros tx i Hi Hf; [cbn in Hi; lia|].
  cbn [fold_left].
  destruct (tx_status tx) eqn:Ho.
  2:{ apply aborted_stays. unfold exec_stmt, tx_Exec. rewrite Ho. reflexivity. }
  destruct i as [|i].
  - apply aborted_stays. unfold exec_stmt, tx_Exec. rewrite Ho.
    rewrite Nat.add_0_r in Hf. rewrite Hf. reflexivity.
  - apply (IH _ i); [cbn in Hi; lia|].
    unfold exec_stmt, tx_Exec. rewrite Ho.
    destruct (exec_ok env (tx_sent tx)); cbn [tx_sent];
      replace (S (tx_sent tx) + i)%nat with (tx_sent tx + S i)%nat by lia; exact Hf.
Qed.

(** A statement is refused or none is. *)
Lemma refused_or_not (env : SyncEnv) (k : nat) :
  (exists i, (i < k)%nat /\ exec_ok env i = false) \/
  (forall i, (i < k)%nat -> exec_ok env i = true).
Proof.
  induction k as [|k [[i [Hi Hf]]|Hall]].
  - right. intros i Hi. lia.
  - left. exists i. split; [lia|exact Hf].
  - destruct (exec_ok env k) eqn:Hk.
    + right. intros i Hi. destruct (decide (i = k)) as [->|Hne]; [exact Hk|apply Hall; lia].
    + left. exists k. split; [lia|exact Hk].
Qed.

(** The outcome of a run whose fetch, decoding and [Begin] succeed. *)
Lemma updateRates_decoded (env : SyncEnv) (data : APIResponse) (db : Database) :
  fetched env = Decoded data -> begin_ok env = true ->
  updateRates env db =
  tx_Commit env (fold_left (exec_stmt env) (statements (range env (Quotes data))) (tx_Begin db)) db.
Proof.
  intros Hf Hb. unfold updateRates. rewrite Hf, Hb. cbn [negb].
  rewrite loop_as_statements. reflexivity.
Qed.

(** Every step succeeds: the cycle is applied in full. *)
Lemma updateRates_success (env : SyncEnv) (data : APIResponse) (db : Database) :
  fetched env = Decoded data -> begin_ok env = true -> commit_ok env = true ->
  (forall i, (i < length (statements (range env (Quotes data))))%nat -> exec_ok env i = true) ->
  updateRates env db = apply_all (now env) (range env (Quotes data)) db.
Proof.
  intros Hf Hb Hc Hall. rewrite (updateRates_decoded env data db Hf Hb).
  rewrite all_accepted; [|reflexivity|exact Hall].
  unfold tx_Commit. cbn. rewrite Hc. reflexivity.
Qed.

(** Some step fails: the store is the one before the cycle. *)
Lemma updateRates_failure (env : SyncEnv) (db : Database) :
  cycle_failed env -> updateRates env db = db.
Proof.
  unfold cycle_failed, sent_statements. intros H.
  destruct (fetched env) as [| |data] eqn:Hf;
    [unfold updateRates; rewrite Hf; reflexivity
    |unfold updateRates; rewrite Hf; reflexivity|].
  destruct (begin_ok env) eqn:Hb.
  2:{ unfold updateRates. rewrite Hf, Hb. reflexivity. }
  rewrite (updateRates_decoded env data db Hf Hb).
  destruct H as [H|[[n [Hn Hr]]|Hc]]; [discriminate| |].
  - unfold tx_Commit. rewrite (one_refused env _ (tx_Begin db) n Hn Hr). reflexivity.
  - unfold tx_Commit. rewrite Hc. destruct (tx_status _); reflexivity.
Qed.

End SynchroniserFacts.

Section StoreAfterCycle.
Context {RT : Runtime}.

Lemma apply_all_cons (now : Time) (e : string * float64) (l : list (string * float64))
    (db : Database) :
  apply_all now (e :: l) db =
  if kept e
  then apply_all now l
         (mkDatabase (<[TrimPrefix e.1 "USD" := mkRateRow (numeric_of_float64 e.2) now]>
                        (exchange_rates db))
                     (rate_history db ++
                        [mkHistoryRow (TrimPrefix e.1 "USD") (numeric_of_float64 e.2) now]))
  else apply_all now l db.
Proof.
  unfold apply_all. rewrite statements_cons. destruct (kept e); reflexivity.
Qed.

(** A full cycle appends one history row per kept entry, in the order of
    the loop. *)
Lemma apply_all_history (now : Time) (l : list (string * float64)) (db : Database) :
  rate_history (apply_all now l db) =
  rate_history db ++ map (history_row_of now) (applied_entries l).
Proof.
  revert db. induction l as [|e l IH]; intros db.
  - cbn. rewrite app_nil_r. reflexivity.
  - rewrite apply_all_cons, applied_entries_cons. destruct (kept e).
    + rewrite IH. cbn [rate_history map]. rewrite <- app_assoc. reflexivity.
    + apply IH.
Qed.

(** A full cycle upserts the rate of every kept entry, in the order of
    the loop. *)
Lemma apply_all_rates (now : Time) (l : list (string * float64)) (db : Database) :
  exchange_rates (apply_all now l db) =
  upsert_all now (applied_entries l) (exchange_rates db).
Proof.
  revert db. induction l as [|e l IH]; intros db.
  - reflexivity.
  - rewrite apply_all_cons, applied_entries_cons. destruct (kept e).
    + rewrite IH. reflexivity.
    + apply IH.
Qed.

Lemma upsert_all_lookup_other (now : Time) (l : list (string * float64))
    (m : gmap string RateRow) (c : string) :
  c ∉ l.*1 -> upsert_all now l m !! c = m !! c.
Proof.
  revert m. induction l as [|e l IH]; intros m Hc; [reflexivity|].
  cbn [upsert_all fold_left]. fold (upsert_all now l (<[e.1 := rate_row_of now e]> m)).
  rewrite fmap_cons in Hc. apply not_elem_of_cons in Hc as [Hne Hc].
  rewrite IH by exact Hc. apply lookup_insert_ne. congruence.
Qed.

Lemma upsert_all_lookup (now : Time) (l : list (string * float64))
    (m : gmap string RateRow) (c : string) :
  c ∈ l.*1 -> exists e, e ∈ l /\ e.1 = c /\ upsert_all now l m !! c = Some (rate_row_of now e).
Proof.
  revert m. induction l as [|e l IH]; intros m Hc; [inversion Hc|].
  cbn [upsert_all fold_left]. fold (upsert_all now l (<[e.1 := rate_row_of now e]> m)).
  destruct (decide (c ∈ l.*1)) as [Hin|Hnin].
  - destruct (IH (<[e.1 := rate_row_of now e]> m) Hin) as [e' [He' [Hc' Hl]]].
    exists e'. split; [right; exact He'|]. split; assumption.
  - rewrite fmap_cons in Hc. apply elem_of_cons in Hc as [->|Hc]; [|contradiction].
    exists e. split; [left|]. split; [reflexivity|].
    rewrite upsert_all_lookup_other by exact Hnin. apply lookup_insert_eq.
Qed.

Lemma upsert_all_dom (now : Time) (l : list (string * float64)) (m : gmap string RateRow) :
  dom (upsert_all now l m) = dom m ∪ list_to_set l.*1.
Proof.
  revert m. induction l as [|e l IH]; intros m.
  - cbn. set_solver.
  - cbn [upsert_all fold_left]. fold (upsert_all now l (<[e.1 := rate_row_of now e]> m)).
    rewrite IH, dom_insert_L, fmap_cons. cbn [list_to_set]. set_solver.
Qed.

(** The loop keeps an entry exactly when its stripped symbol is three
    bytes long. *)
Lemma kept_iff (e : string * float64) :
  kept e = true <-> String.length (TrimPrefix e.1 "USD") = 3%nat.
Proof.
  unfold kept. rewrite negb_true_iff, orb_false_iff, negb_false_iff, Nat.eqb_eq.
  split; [intros [_ H]; exact H|]. intros H. split; [|exact H].
  destruct (TrimPrefix e.1 "USD"); [discriminate H|reflexivity].
Qed.

Lemma applied_entries_elem (l : list (string * float64)) (c : string) (r : float64) :
  (c, r) ∈ applied_entries l <->
  exists p, (p, r) ∈ l /\ TrimPrefix p "USD" = c /\ String.length c = 3%nat.
Proof.
  unfold applied_entries. rewrite list_elem_of_fmap. split.
  - intros [[p r'] [Heq Hin]]. cbn in Heq. inversion Heq; subst.
    apply list_elem_of_filter in Hin as [Hk Hin]. apply kept_iff in Hk.
    exists p. auto.
  - intros [p [Hin [Hc Hlen]]]. exists (p, r). split; [cbn; congruence|].
    apply list_elem_of_filter. split; [|exact Hin]. apply kept_iff. cbn. congruence.
Qed.

End StoreAfterCycle.

(* ===================================================================== *)
(** * The claims about the synchroniser                                   *)
(* ===================================================================== *)

Section SynchroniserClaims.
Context {RT : Runtime}.

Lemma range_elem (rg : MapRange) (m : gmap string float64) (p : string) (r : float64) :
  (p, r) ∈ rg m <-> m !! p = Some r.
Proof. rewrite (range_perm rg m). apply elem_of_map_to_list. Qed.

Lemma range_two (rg : MapRange) (p1 p2 : string) (r1 r2 : float64) :
  p1 <> p2 ->
  rg (<[p1 := r1]> (<[p2 := r2]> ∅)) = [(p1, r1); (p2, r2)] \/
  rg (<[p1 := r1]> (<[p2 := r2]> ∅)) = [(p2, r2); (p1, r1)].
Proof.
  intros Hne. apply Permutation_length_2_inv. symmetry.
  rewrite (range_perm rg).
  rewrite map_to_list_insert by (rewrite lookup_insert_ne by congruence; apply lookup_empty).
  rewrite map_to_list_insert by apply lookup_empty.
  rewrite map_to_list_empty. reflexivity.
Qed.

Lemma cycle_failed_or_ok (env : SyncEnv) : cycle_failed env \/ cycle_ok env.
Proof.
  unfold cycle_failed, cycle_ok, sent_statements.
  destruct (fetched env) as [| |data] eqn:Hf; [left; exact I|left; exact I|].
  destruct (begin_ok env) eqn:Hb; [|left; left; reflexivity].
  destruct (commit_ok env) eqn:Hc; [|left; right; right; reflexivity].
  destruct (refused_or_not env (length (statements (range env (Quotes data))))) as [Hr|Hall].
  - left. right. left. exact Hr.
  - right. exists data. auto.
Qed.

Lemma updateRates_ok (env : SyncEnv) (db : Database) :
  cycle_ok env -> updateRates env db = fully_applied env db.
Proof.
  intros [data [Hf [Hb [Hc Hall]]]]. unfold fully_applied. rewrite Hf.
  apply updateRates_success; assumption.
Qed.

(** C1 (sync atomicity): when the fetch, the decoding, the opening of the
    transaction, one of the statements sent in it or the commit fails, the
    store after [updateRates] is the store before it, rates and history
    alike. The store a reader finds after a cycle is the one before it or
    the one with the whole cycle applied, the latter exactly when no step
    failed. *)
Theorem C1_sync_atomicity (env : SyncEnv) (db : Database) :
  (cycle_failed env -> updateRates env db = db) /\
  (cycle_ok env -> updateRates env db = fully_applied env db) /\
  (cycle_failed env \/ cycle_ok env) /\
  (updateRates env db = db \/ updateRates env db = fully_applied env db).
Proof.
  split; [apply updateRates_failure|].
  split; [apply updateRates_ok|].
  split; [apply cycle_failed_or_ok|].
  destruct (cycle_failed_or_ok env) as [Hf|Hok].
  - left. apply updateRates_failure. exact Hf.
  - right. apply updateRates_ok. exact Hok.
Qed.

(** C3, as amended: the loop strips the prefix USD from the pair symbol
    and applies the entry exactly when what is left is three bytes long,
    whatever the bytes; every other entry is skipped. After a cycle whose
    steps all succeed the history has one new row per kept entry and the
    current rates hold the upserts of the kept entries. For the snapshot
    of USDEUR and USDJPY these are the two rate rows EUR and JPY and two
    history rows. *)
Theorem C3_snapshot_filtering (env : SyncEnv) (data : APIResponse) (db : Database) :
  fetched env = Decoded data -> cycle_ok env ->
  let l := range env (Quotes data) in
  (forall e, kept e = true <-> String.length (TrimPrefix e.1 "USD") = 3%nat) /\
  (forall c r, (c, r) ∈ applied_entries l <->
     exists p, Quotes data !! p = Some r /\ TrimPrefix p "USD" = c /\ String.length c = 3%nat) /\
  rate_history (updateRates env db) =
    rate_history db ++ map (history_row_of (now env)) (applied_entries l) /\
  exchange_rates (updateRates env db) =
    upsert_all (now env) (applied_entries l) (exchange_rates db) /\
  (forall r1 r2, Quotes data = <["USDEUR" := r1]> (<["USDJPY" := r2]> ∅) ->
     exchange_rates (updateRates env db) =
       <["EUR" := mkRateRow (numeric_of_float64 r1) (now env)]>
         (<["JPY" := mkRateRow (numeric_of_float64 r2) (now env)]> (exchange_rates db)) /\
     rate_history (updateRates env db) ≡ₚ
       rate_history db ++ [mkHistoryRow "EUR" (numeric_of_float64 r1) (now env);
                           mkHistoryRow "JPY" (numeric_of_float64 r2) (now env)] /\
     length (rate_history (updateRates env db)) = (length (rate_history db) + 2)%nat).
Proof.
  intros Hf Hok l.
  assert (Hup : updateRates env db = apply_all (now env) l db).
  { rewrite (updateRates_ok env db Hok). unfold fully_applied. rewrite Hf. reflexivity. }
  split; [apply kept_iff|].
  split.
  { intros c r. rewrite applied_entries_elem. unfold l.
    split; intros [p [Hp Hrest]]; exists p; (split; [|exact Hrest]).
    - apply (proj1 (range_elem _ _ _ _) Hp).
    - apply (proj2 (range_elem _ _ _ _) Hp). }
  rewrite Hup, apply_all_history, apply_all_rates.
  split; [reflexivity|]. split; [reflexivity|].
  intros r1 r2 Hq. unfold l. rewrite Hq.
  destruct (range_two (range env) "USDEUR" "USDJPY" r1 r2 ltac:(discriminate)) as [->| ->].
  - split; [|split].
    + cbn. apply insert_insert_ne. discriminate.
    + reflexivity.
    + rewrite length_app. reflexivity.
  - split; [|split].
    + reflexivity.
    + cbn. apply Permutation_app_head. apply perm_swap.
    + rewrite length_app. reflexivity.
Qed.

(** The rows that the full application of a snapshot leaves for one of
    its symbols whose code is three bytes long: a history row with the
    numeric of its quote, and a current rate with the numeric of a quote
    whose symbol leaves the same code, its own when no other symbol does. *)
Lemma apply_all_symbol (rg : MapRange) (t : Time) (quotes : gmap string float64)
    (db : Database) (p : string) (r : float64) :
  quotes !! p = Some r -> String.length (TrimPrefix p "USD") = 3%nat ->
  mkHistoryRow (TrimPrefix p "USD") (numeric_of_float64 r) t
    ∈ rate_history (apply_all t (rg quotes) db) /\
  (exists p' r', quotes !! p' = Some r' /\ TrimPrefix p' "USD" = TrimPrefix p "USD" /\
     exchange_rates (apply_all t (rg quotes) db) !! TrimPrefix p "USD" =
       Some (mkRateRow (numeric_of_float64 r') t)) /\
  (distinct_codes quotes ->
   exchange_rates (apply_all t (rg quotes) db) !! TrimPrefix p "USD" =
     Some (mkRateRow (numeric_of_float64 r) t)).
Proof.
  intros Hp Hlen.
  assert (Hin : (TrimPrefix p "USD", r) ∈ applied_entries (rg quotes)).
  { apply applied_entries_elem. exists p.
    split; [apply (proj2 (range_elem rg quotes p r) Hp)|]. split; [reflexivity|exact Hlen]. }
  assert (Hrate : exists p' r', quotes !! p' = Some r' /\
                    TrimPrefix p' "USD" = TrimPrefix p "USD" /\
                    exchange_rates (apply_all t (rg quotes) db) !! TrimPrefix p "USD" =
                      Some (mkRateRow (numeric_of_float64 r') t)).
  { rewrite apply_all_rates.
    destruct (upsert_all_lookup t (applied_entries (rg quotes)) (exchange_rates db)
                (TrimPrefix p "USD")) as [[c' r'] [He [Hc Hl]]].
    { apply list_elem_of_fmap. exists (TrimPrefix p "USD", r). split; [reflexivity|exact Hin]. }
    cbn [fst] in Hc. subst c'.
    apply applied_entries_elem in He as [p' [Hp' [Hc' _]]].
    exists p', r'. split; [apply (proj1 (range_elem rg quotes p' r') Hp')|].
    split; [exact Hc'|exact Hl]. }
  split; [|split].
  - rewrite apply_all_history. apply elem_of_app. right.
    apply list_elem_of_fmap. exists (TrimPrefix p "USD", r). split; [reflexivity|exact Hin].
  - exact Hrate.
  - intros Hd. destruct Hrate as [p' [r' [Hp' [Hc' Hl]]]].
    rewrite Hl. rewrite (Hd p' p r' r Hp' Hp Hc') in Hp'.
    rewrite Hp in Hp'. injection Hp' as <-. reflexivity.
Qed.

(** The full application of the snapshot of USDEUR and USDJPY. *)
Lemma apply_all_eur_jpy (rg : MapRange) (t : Time) (r1 r2 : float64) (db : Database) :
  exchange_rates (apply_all t (rg (<["USDEUR" := r1]> (<["USDJPY" := r2]> ∅))) db) =
    <["EUR" := mkRateRow (numeric_of_float64 r1) t]>
      (<["JPY" := mkRateRow (numeric_of_float64 r2) t]> (exchange_rates db)) /\
  rate_history (apply_all t (rg (<["USDEUR" := r1]> (<["USDJPY" := r2]> ∅))) db) ≡ₚ
    rate_history db ++ [mkHistoryRow "EUR" (numeric_of_float64 r1) t;
                        mkHistoryRow "JPY" (numeric_of_float64 r2) t].
Proof.
  rewrite apply_all_history, apply_all_rates.
  destruct (range_two rg "USDEUR" "USDJPY" r1 r2 ltac:(discriminate)) as [->| ->].
  - split; [cbn; apply insert_insert_ne; discriminate|reflexivity].
  - split; [reflexivity|cbn; apply Permutation_app_head; apply perm_swap].
Qed.

(** C10 (the success flag is ignored): two responses of the provider that
    differ in [success] alone leave the same store after [updateRates],
    whatever else happens in the cycle. A response with [success = false]
    whose cycle meets no failure is applied in full: the history gains one
    row per symbol whose code is three bytes long, with the numeric of its
    quote and the time of the cycle; the current rate of such a code is
    the numeric of a quote that leaves it, at the time of the cycle; the
    other codes keep their rates. For the snapshot of USDEUR and USDJPY
    the rows written are those of EUR and JPY. *)
Theorem C10_success_flag_ignored (s1 s2 : bool) (ts : Z) (quotes : gmap string float64)
    (rg : MapRange) (b : bool) (ok : nat -> bool) (c : bool) (t : Time) (db : Database) :
  updateRates (mkSyncEnv (Decoded (mkAPIResponse s1 ts quotes)) rg b ok c t) db =
  updateRates (mkSyncEnv (Decoded (mkAPIResponse s2 ts quotes)) rg b ok c t) db /\
  let after :=
    updateRates (mkSyncEnv (Decoded (mkAPIResponse false ts quotes)) rg true (fun _ => true) true t)
      db in
  after = apply_all t (rg quotes) db /\
  rate_history after =
    rate_history db ++ map (history_row_of t) (applied_entries (rg quotes)) /\
  (forall p r, quotes !! p = Some r -> String.length (TrimPrefix p "USD") = 3%nat ->
     mkHistoryRow (TrimPrefix p "USD") (numeric_of_float64 r) t ∈ rate_history after /\
     (exists p' r', quotes !! p' = Some r' /\ TrimPrefix p' "USD" = TrimPrefix p "USD" /\
        exchange_rates after !! TrimPrefix p "USD" =
          Some (mkRateRow (numeric_of_float64 r') t)) /\
     (distinct_codes quotes ->
      exchange_rates after !! TrimPrefix p "USD" =
        Some (mkRateRow (numeric_of_float64 r) t))) /\
  (forall code, ~ writes_code quotes code ->
     exchange_rates after !! code = exchange_rates db !! code) /\
  (forall r1 r2, quotes = <["USDEUR" := r1]> (<["USDJPY" := r2]> ∅) ->
     exchange_rates after =
       <["EUR" := mkRateRow (numeric_of_float64 r1) t]>
         (<["JPY" := mkRateRow (numeric_of_float64 r2) t]> (exchange_rates db)) /\
     rate_history after ≡ₚ
       rate_history db ++ [mkHistoryRow "EUR" (numeric_of_float64 r1) t;
                           mkHistoryRow "JPY" (numeric_of_float64 r2) t]).
Proof.
  split; [reflexivity|].
  intros after.
  assert (Hafter : after = apply_all t (rg quotes) db).
  { apply (updateRates_success
             (mkSyncEnv (Decoded (mkAPIResponse false ts quotes)) rg true (fun _ => true) true t)
             (mkAPIResponse false ts quotes) db); reflexivity. }
  split; [exact Hafter|]. rewrite Hafter.
  split; [apply apply_all_history|].
  split; [intros p r Hp Hlen; apply apply_all_symbol; assumption|].
  split.
  - intros code Hw. rewrite apply_all_rates. apply upsert_all_lookup_other.
    intros Hin. apply list_elem_of_fmap in Hin as [[c' r'] [Hc He]].
    cbn [fst] in Hc. subst c'.
    apply applied_entries_elem in He as [p [Hp [Hc Hlen]]].
    apply Hw. exists p, r'. split; [apply (proj1 (range_elem rg quotes p r') Hp)|].
    split; assumption.
  - intros r1 r2 ->. apply apply_all_eur_jpy.
Qed.

End SynchroniserClaims.

Lemma env_ok_cycle_ok (rg : @MapRange example_runtime) (quotes : gmap string Q) (success : bool) :
  @cycle_ok example_runtime (env_ok rg quotes success).
Proof.
  exists (response_of success quotes).
  split; [reflexivity|]. split; [reflexivity|]. split; [reflexivity|].
  intros i Hi. reflexivity.
Defined.

(** For C10: the snapshot of EUR and JPY with [success = false] on the
    example store. The rates of EUR and JPY are replaced, that of GBP is
    kept, and the history grows from four rows to six. *)
Lemma C10_success_flag_ignored_witness :
  exchange_rates
    (@updateRates example_runtime (env_ok range_in_order quotes_eur_jpy false) db_example) =
    <["EUR" := rate_row 90000000 1700000000000000]>
      (<["JPY" := rate_row 15000000000 1700000000000000]>
         (<["GBP" := rate_row 80000000 100]> ∅)) /\
  rate_history
    (@updateRates example_runtime (env_ok range_in_order quotes_eur_jpy false) db_example) =
    rate_history db_example ++
      [mkHistoryRow "EUR" (mkDecimal 90000000 (-8)) 1700000000000000;
       mkHistoryRow "JPY" (mkDecimal 15000000000 (-8)) 1700000000000000] /\
  @updateRates example_runtime (env_ok range_in_order quotes_eur_jpy false) db_example =
  @updateRates example_runtime (env_ok range_in_order quotes_eur_jpy true) db_example.
Proof.
  destruct (@C10_success_flag_ignored example_runtime false true 1700000000 quotes_eur_jpy
              range_in_order true (fun _ => true) true 1700000000000000 db_example)
    as [H1 [_ [H2 [_ [_ H3]]]]].
  split; [|split; [|exact H1]].
  - destruct (H3 0.9%Q 150%Q eq_refl) as [H _].
    unfold env_ok, response_of. rewrite H. vm_compute. reflexivity.
  - unfold env_ok, response_of. rewrite H2. vm_compute. reflexivity.
Defined.

(** For C1: the second statement of a cycle is refused and the store of
    the example is unchanged, although the first statement was accepted. *)
Lemma C1_sync_atomicity_witness :
  @cycle_failed example_runtime env_second_fails /\
  @updateRates example_runtime env_second_fails db_example = db_example.
Proof.
  assert (H : @cycle_failed example_runtime env_second_fails).
  { right. left. exists 1%nat. split; [vm_compute; lia|reflexivity]. }
  split; [exact H|].
  exact (proj1 (@C1_sync_atomicity example_runtime env_second_fails db_example) H).
Defined.

(** For C3: the mixed snapshot on the empty store, [range] in reverse
    order. The symbols USD and USDXX are skipped, USD123 is kept. *)
Lemma C3_snapshot_filtering_witness :
  @cycle_ok example_runtime (env_ok range_reversed quotes_mixed true) /\
  rate_history (@updateRates example_runtime (env_ok range_reversed quotes_mixed true) empty_database) =
    [mkHistoryRow "JPY" (mkDecimal 15000000000 (-8)) 1700000000000000;
     mkHistoryRow "123" (mkDecimal 200000000 (-8)) 1700000000000000;
     mkHistoryRow "EUR" (mkDecimal 90000000 (-8)) 1700000000000000].
Proof.
  split; [apply env_ok_cycle_ok|].
  exact (proj1 (proj2 (proj2
           (@C3_snapshot_filtering example_runtime (env_ok range_reversed quotes_mixed true)
              (response_of true quotes_mixed) empty_database eq_refl
              (env_ok_cycle_ok range_reversed quotes_mixed true))))).
Defined.

(** C3 as stated fails: the symbol USD123 leaves the code 123, which is
    not three letters, and the cycle writes a current rate and a history
    row for it. So it does for the symbol that leaves the euro sign, a
    single character. *)
Lemma C3_counterexample :
  three_letters (TrimPrefix "USD123" "USD") = false /\
  exchange_rates
    (@updateRates example_runtime (env_ok range_in_order quotes_digits true) empty_database)
    !! "123" = Some (rate_row 200000000 1700000000000000) /\
  rate_history
    (@updateRates example_runtime (env_ok range_in_order quotes_digits true) empty_database) =
    [mkHistoryRow "123" (mkDecimal 200000000 (-8)) 1700000000000000] /\
  utf8_characters (TrimPrefix "USD€" "USD") = 1%nat /\
  rate_history
    (@updateRates example_runtime (env_ok range_in_order quotes_euro_sign true) empty_database) =
    [mkHistoryRow "€" (mkDecimal 200000000 (-8)) 1700000000000000].
Proof. repeat split; vm_compute; reflexivity. Qed.

(* ===================================================================== *)
(** * Properties of the history query                                     *)
(* ===================================================================== *)

Section HistoryFacts.
Context {RT : Runtime}.

Lemma insert_desc_perm (r : HistoryRow) (l : list HistoryRow) :
  insert_desc r l ≡ₚ r :: l.
Proof.
  induction l as [|x l IH]; [reflexivity|]. cbn.
  destruct (recorded_at x <? recorded_at r); [reflexivity|].
  rewrite IH. apply perm_swap.
Qed.

Lemma insert_desc_sorted (r : HistoryRow) (l : list HistoryRow) :
  StronglySorted newer_first l -> StronglySorted newer_first (insert_desc r l).
Proof.
  induction l as [|x l IH]; intros Hs.
  - cbn. constructor; constructor.
  - cbn. destruct (recorded_at x <? recorded_at r) eqn:Hlt.
    + apply Z.ltb_lt in Hlt. constructor; [exact Hs|].
      apply StronglySorted_cons in Hs as [Hx _].
      constructor; [unfold newer_first; lia|].
      eapply Forall_impl; [exact Hx|]. unfold newer_first. intros y Hy. lia.
    + apply Z.ltb_ge in Hlt. apply StronglySorted_cons in Hs as [Hx Hl].
      constructor; [apply IH; exact Hl|].
      rewrite insert_desc_perm. constructor; [exact Hlt|exact Hx].
Qed.

Lemma order_by_perm (l : list HistoryRow) : order_by_recorded_at_desc l ≡ₚ l.
Proof.
  induction l as [|x l IH]; [reflexivity|].
  cbn. rewrite insert_desc_perm, IH. reflexivity.
Qed.

Lemma order_by_sorted (l : list HistoryRow) :
  StronglySorted newer_first (order_by_recorded_at_desc l).
Proof.
  induction l as [|x l IH]; [constructor|]. cbn. apply insert_desc_sorted. exact IH.
Qed.

Lemma filter_nothing (f : HistoryRow -> bool) (l : list HistoryRow) :
  (forall r, f r = false) -> List.filter f l = [].
Proof.
  intros H. induction l as [|x l IH]; [reflexivity|]. cbn. rewrite H. exact IH.
Qed.

(** The conditions select the rows of the window ... *)
Ltac same_rows :=
  do 3 f_equal; apply filter_ext; intros r;
  rewrite ?andb_true_r, ?andb_assoc; reflexivity.

(** ... or a bound cannot be read and no row is returned. *)
Ltac no_rows :=
  rewrite filter_nothing; [reflexivity|intros r; rewrite ?andb_false_r; reflexivity].

(** What the statement built by [handleHistory] returns. *)
Lemma Query_history_built (pool : Pool) (code start end_ : string) :
  pool_up pool = true ->
  let '(query, args, argCount) :=
    if negb (String.eqb start "")
    then ([CurrencyCodeEq 1] ++ [RecordedAtGe 2], [code] ++ [start], 3%nat)
    else ([CurrencyCodeEq 1], [code], 2%nat) in
  let '(query, args, argCount) :=
    if negb (String.eqb end_ "")
    then (query ++ [RecordedAtLe argCount], args ++ [end_], S argCount)
    else (query, args, argCount) in
  Query_history pool (mkHistoryQuery query args 100) =
  Rows (take 100 (order_by_recorded_at_desc
                    (List.filter (in_window code start end_) (rate_history (pool_db pool))))).
Proof.
  intros Hup. unfold Query_history, in_window.
  destruct (String.eqb start "") eqn:Hs, (String.eqb end_ "") eqn:He;
    cbn -[take order_by_recorded_at_desc List.filter]; rewrite Hup;
    cbn -[take order_by_recorded_at_desc List.filter].
  - same_rows.
  - destruct (timestamptz_of_string end_) as [t|];
      cbn -[take order_by_recorded_at_desc List.filter]; [same_rows|no_rows].
  - destruct (timestamptz_of_string start) as [t|];
      cbn -[take order_by_recorded_at_desc List.filter]; [same_rows|no_rows].
  - destruct (timestamptz_of_string start) as [t|], (timestamptz_of_string end_) as [t'|];
      cbn -[take order_by_recorded_at_desc List.filter]; [same_rows|no_rows..].
Qed.

End HistoryFacts.

Section HistoryClaims.
Context {RT : Runtime}.

(** The response of [handleHistory] to a well-formed code while the store
    can be reached. *)
Lemma handleHistory_rows (pool : Pool) (q_code q_start q_end : string) :
  String.length (ToUpper q_code) = 3%nat -> pool_up pool = true ->
  response (handleHistory pool q_code q_start q_end) =
  Json (HistoryBody
          (map (item_of_row (ToUpper q_code))
             (take 100 (order_by_recorded_at_desc
                          (List.filter (in_window (ToUpper q_code) q_start q_end)
                             (rate_history (pool_db pool))))))).
Proof.
  intros Hlen Hup. unfold handleHistory. rewrite Hlen. cbn [Nat.eqb negb].
  pose proof (Query_history_built pool (ToUpper q_code) q_start q_end Hup) as H.
  destruct (String.eqb q_start ""), (String.eqb q_end "");
    cbn [negb app] in H |- *; rewrite H; reflexivity.
Qed.

Lemma in_window_true (code start end_ : string) (r : HistoryRow) :
  in_window code start end_ r = true ->
  currency_code r = code /\
  (start <> "" -> exists t, timestamptz_of_string start = Some t /\ t <= recorded_at r) /\
  (end_ <> "" -> exists t, timestamptz_of_string end_ = Some t /\ recorded_at r <= t).
Proof.
  unfold in_window. rewrite !andb_true_iff. intros [[Hc Hs] He].
  split; [apply String.eqb_eq; exact Hc|]. split.
  - intros Hne. destruct (String.eqb start "") eqn:E; [apply String.eqb_eq in E; contradiction|].
    destruct (timestamptz_of_string start) as [t|]; [|discriminate].
    exists t. split; [reflexivity|lia].
  - intros Hne. destruct (String.eqb end_ "") eqn:E; [apply String.eqb_eq in E; contradiction|].
    destruct (timestamptz_of_string end_) as [t|]; [|discriminate].
    exists t. split; [reflexivity|lia].
Qed.

(** The printed date of a row is the whole second in which its
    [recorded_at] lies. *)
Lemma whole_second (code : string) (r : HistoryRow) :
  item_date (item_of_row code r) * 1000000 <= recorded_at r
    < item_date (item_of_row code r) * 1000000 + 1000000.
Proof.
  unfold item_of_row, Format_RFC3339. cbn [item_date].
  pose proof (Z.div_mod (recorded_at r) 1000000 ltac:(lia)) as Hd.
  pose proof (Z.mod_pos_bound (recorded_at r) 1000000 ltac:(lia)) as Hm.
  lia.
Qed.

(** Rows newest first are printed with dates that never increase. *)
Lemma later_first_of_rows (code : string) (r1 r2 : HistoryRow) :
  newer_first r1 r2 -> later_first (item_of_row code r1) (item_of_row code r2).
Proof.
  unfold newer_first, later_first, item_of_row, Format_RFC3339. cbn [item_date].
  intros H. apply Z.div_le_mono; [lia|exact H].
Qed.

(** C6 (history query): for a code of three bytes and a reachable store,
    [handleHistory] answers with the entries of rows that all belong to the
    code and whose [recorded_at] lies between the supplied bounds, both
    inclusive and each applied only when supplied; they come newest first,
    are at most 100, and are the newest of the rows that qualify: the rows
    left out ([rest]) are no newer than any returned one. An entry carries
    the code of the request, the rate of its row rounded to 6 digits, and
    as its date the whole second in which the [recorded_at] of its row
    lies; the dates of the response never increase. *)
Theorem C6_history_query (pool : Pool) (q_code q_start q_end : string) :
  String.length (ToUpper q_code) = 3%nat -> pool_up pool = true ->
  exists rows rest,
    response (handleHistory pool q_code q_start q_end) =
      Json (HistoryBody (map (item_of_row (ToUpper q_code)) rows)) /\
    rows ++ rest ≡ₚ
      List.filter (in_window (ToUpper q_code) q_start q_end) (rate_history (pool_db pool)) /\
    (forall r, r ∈ rows ->
       r ∈ rate_history (pool_db pool) /\
       currency_code r = ToUpper q_code /\
       (q_start <> "" ->
        exists t, timestamptz_of_string q_start = Some t /\ t <= recorded_at r) /\
       (q_end <> "" ->
        exists t, timestamptz_of_string q_end = Some t /\ recorded_at r <= t)) /\
    StronglySorted newer_first rows /\
    (forall r r', r ∈ rows -> r' ∈ rest -> newer_first r r') /\
    (length rows <= 100)%nat /\
    length rows =
      Nat.min 100 (length (List.filter (in_window (ToUpper q_code) q_start q_end)
                             (rate_history (pool_db pool)))) /\
    (forall r, r ∈ rows ->
       item_code (item_of_row (ToUpper q_code) r) = ToUpper q_code /\
       item_rate (item_of_row (ToUpper q_code) r) = Round (rate r) 6 /\
       item_date (item_of_row (ToUpper q_code) r) * 1000000 <= recorded_at r
         < item_date (item_of_row (ToUpper q_code) r) * 1000000 + 1000000) /\
    StronglySorted later_first (map (item_of_row (ToUpper q_code)) rows).
Proof.
  intros Hlen Hup.
  set (matching := List.filter (in_window (ToUpper q_code) q_start q_end)
                     (rate_history (pool_db pool))).
  set (sorted := order_by_recorded_at_desc matching).
  exists (take 100 sorted), (drop 100 sorted).
  assert (Hsorted : StronglySorted newer_first (take 100 sorted ++ drop 100 sorted)).
  { rewrite take_drop. apply order_by_sorted. }
  split; [apply handleHistory_rows; assumption|].
  split; [rewrite take_drop; apply order_by_perm|].
  split.
  { intros r Hr.
    assert (Hin : r ∈ matching).
    { rewrite <- (order_by_perm matching). fold sorted.
      rewrite <- (take_drop 100 sorted). apply elem_of_app. left. exact Hr. }
    apply list_elem_of_In, filter_In in Hin as [Hin Hw].
    split; [apply list_elem_of_In; exact Hin|].
    apply in_window_true. exact Hw. }
  split; [eapply StronglySorted_app_1_l; exact Hsorted|].
  split; [intros r r' Hr Hr'; eapply StronglySorted_app_1_elem_of; eassumption|].
  rewrite length_take. split; [lia|].
  split; [unfold sorted; rewrite (Permutation_length (order_by_perm matching)); reflexivity|].
  split.
  { intros r _. split; [reflexivity|]. split; [reflexivity|].
    apply whole_second. }
  apply (StronglySorted_fmap _ newer_first later_first); [apply later_first_of_rows|].
  eapply StronglySorted_app_1_l; exact Hsorted.
Qed.

(** C7, as amended: [handleHistory] and [handleSingleRate] answer 400
    without sending a statement exactly when the upper-cased code is not
    three bytes long. A code of three bytes is accepted whatever its bytes
    are: the request is not answered with 400 and one statement is sent. *)
Theorem C7_code_validation (pool : Pool) (q_code q_start q_end path : string) :
  (String.length (ToUpper q_code) <> 3%nat ->
   handleHistory pool q_code q_start q_end =
   mkHandled (HttpError "Se requiere código de moneda (parámetro 'code')" 400) []) /\
  (String.length (ToUpper q_code) = 3%nat ->
   (forall msg, response (handleHistory pool q_code q_start q_end) <> HttpError msg 400) /\
   exists q, queries (handleHistory pool q_code q_start q_end) = [SelectHistory q]) /\
  (String.length (ToUpper (TrimPrefix path "/rates/")) <> 3%nat ->
   handleSingleRate pool path = mkHandled (HttpError "Código inválido" 400) []) /\
  (String.length (ToUpper (TrimPrefix path "/rates/")) = 3%nat ->
   (forall msg, response (handleSingleRate pool path) <> HttpError msg 400) /\
   queries (handleSingleRate pool path) =
     [SelectRateUpdated (ToUpper (TrimPrefix path "/rates/"))]).
Proof.
  split; [|split; [|split]].
  - intros Hne. unfold handleHistory.
    apply Nat.eqb_neq in Hne. rewrite Hne. reflexivity.
  - intros Hlen. unfold handleHistory. rewrite Hlen. cbn [Nat.eqb negb].
    destruct (String.eqb q_start ""), (String.eqb q_end ""); cbn [negb response queries];
      (split; [intros msg; destruct (Query_history _ _); discriminate|eexists; reflexivity]).
  - intros Hne. unfold handleSingleRate.
    apply Nat.eqb_neq in Hne. rewrite Hne. reflexivity.
  - intros Hlen. unfold handleSingleRate. rewrite Hlen. cbn [Nat.eqb negb response queries].
    split; [|reflexivity].
    intros msg. destruct (QueryRow_rate_updated _ _) as [[r u]|]; discriminate.
Qed.

End HistoryClaims.

(** For C6: the history of EUR in a store whose rows are seconds and a
    fraction apart, from 2.5 s to 7.25 s after the epoch. The row at 2.5 s
    is printed with the date 2 s. *)
Lemma C6_history_query_witness :
  String.length (@ToUpper example_runtime "eur") = 3%nat /\
  pool_up pool_seconds = true /\
  response (@handleHistory example_runtime pool_seconds "eur" "2500000" "7250000") =
    Json (HistoryBody [mkHistoryItem "EUR" (mkDecimal 905000 (-6)) 7;
                       mkHistoryItem "EUR" (mkDecimal 910000 (-6)) 2]) /\
  exists rows rest,
    response (@handleHistory example_runtime pool_seconds "eur" "2500000" "7250000") =
      Json (HistoryBody (map (@item_of_row (@ToUpper example_runtime "eur")) rows)) /\
    rows ++ rest ≡ₚ
      List.filter (@in_window example_runtime (@ToUpper example_runtime "eur")
                     "2500000" "7250000")
        (rate_history (pool_db pool_seconds)) /\
    (length rows <= 100)%nat /\
    StronglySorted later_first (map (@item_of_row (@ToUpper example_runtime "eur")) rows).
Proof.
  split; [reflexivity|]. split; [reflexivity|].
  split; [vm_compute; reflexivity|].
  destruct (@C6_history_query example_runtime pool_seconds "eur" "2500000" "7250000"
              eq_refl eq_refl)
    as [rows [rest [H1 [H2 [_ [_ [_ [H3 [_ [_ H4]]]]]]]]]].
  exists rows, rest. split; [exact H1|]. split; [exact H2|]. split; [exact H3|exact H4].
Defined.

(** C7 as stated fails: the code 123 is not three upper-case letters, yet
    neither handler answers 400 and both query the store. *)
Lemma C7_counterexample :
  three_upper_letters (@ToUpper example_runtime "123") = false /\
  @handleHistory example_runtime pool_example "123" "" "" =
    mkHandled (Json (HistoryBody []))
      [SelectHistory (mkHistoryQuery [CurrencyCodeEq 1] ["123"] 100)] /\
  @handleSingleRate example_runtime pool_example "/rates/123" =
    mkHandled (HttpError "No encontrado" 404) [SelectRateUpdated "123"].
Proof. split; [|split]; vm_compute; reflexivity. Qed.

(** For C7: the code euro is four bytes long and is refused before any
    statement is sent. *)
Lemma C7_code_validation_witness :
  String.length (@ToUpper example_runtime "euro") <> 3%nat /\
  @handleHistory example_runtime pool_example "euro" "" "" =
    mkHandled (HttpError "Se requiere código de moneda (parámetro 'code')" 400) [].
Proof.
  assert (H : String.length (@ToUpper example_runtime "euro") <> 3%nat) by discriminate.
  split; [exact H|].
  exact (proj1 (@C7_code_validation example_runtime pool_example "euro" "" "" "/rates/euro") H).
Defined.

(* ===================================================================== *)
(** * Properties of the decimal arithmetic                                *)
(* ===================================================================== *)

Module decimal_facts.
Import decimal.

Lemma half_up_div (A B : Z) :
  0 <= A -> 0 < B ->
  (2 * A + B) / (2 * B) = A / B + (if 2 * (A mod B) <? B then 0 else 1).
Proof.
  intros HA HB.
  pose proof (Z.div_mod A B ltac:(lia)) as Hdm.
  pose proof (Z.mod_pos_bound A B HB) as Hr.
  destruct (2 * (A mod B) <? B) eqn:E.
  - apply Z.ltb_lt in E. symmetry.
    apply (Z.div_unique (2 * A + B) (2 * B) (A / B + 0) (2 * (A mod B) + B)); [lia|nia].
  - apply Z.ltb_ge in E. symmetry.
    apply (Z.div_unique (2 * A + B) (2 * B) (A / B + 1) (2 * (A mod B) - B)); [lia|nia].
Qed.

(** The quotient of [QuoRem] with the remainder's half rounded away. *)
Lemma quot_round_away (a b : Z) :
  b <> 0 ->
  (if 2 * Z.abs (Z.rem a b) <? Z.abs b then Z.quot a b
   else if Z.sgn a * Z.sgn b <? 0 then Z.quot a b - 1 else Z.quot a b + 1)
  = Zround_away (a * Z.sgn b) (Z.abs b).
Proof.
  intros Hb. unfold Zround_away.
  assert (HB : 0 < Z.abs b) by lia.
  pose proof (Z.mod_pos_bound (Z.abs a) (Z.abs b) HB) as Hr.
  replace (Z.abs (a * Z.sgn b)) with (Z.abs a) by (destruct b; [congruence|lia|lia]).
  replace (Z.sgn (a * Z.sgn b)) with (Z.sgn a * Z.sgn b)
    by (rewrite Z.sgn_mul; destruct b; reflexivity).
  rewrite (Z.quot_div a b Hb), (Z.rem_mod a b Hb).
  rewrite (half_up_div (Z.abs a) (Z.abs b)) by lia.
  destruct (Z.eq_dec a 0) as [->|Ha].
  - replace (Z.abs 0) with 0 by reflexivity. rewrite Z.mod_0_l by lia.
    replace (Z.sgn 0) with 0 by reflexivity. rewrite !Z.mul_0_l, !Z.mul_0_r.
    replace (Z.abs 0) with 0 by reflexivity.
    destruct (0 <? Z.abs b) eqn:E; [reflexivity|]. apply Z.ltb_ge in E. lia.
  - replace (Z.abs (Z.sgn a * (Z.abs a mod Z.abs b))) with (Z.abs a mod Z.abs b) by nia.
    destruct (2 * (Z.abs a mod Z.abs b) <? Z.abs b).
    + lia.
    + destruct (Z.sgn a * Z.sgn b <? 0) eqn:E.
      * apply Z.ltb_lt in E. nia.
      * apply Z.ltb_ge in E. nia.
Qed.

(** The last step of [Round]: add or take 5, divide by 10, and go back up
    by one when the quotient is negative and the division was not exact. *)
Lemma round_digit_spec (T : Z) :
  (let v := if Z.sgn T <? 0 then T - 5 else T + 5 in
   let q := v / 10 in
   let m := v mod 10 in
   if (Z.sgn q <? 0) && negb (m =? 0) then q + 1 else q) = Zround_away T 10.
Proof.
  cbv zeta. unfold Zround_away. change (2 * 10) with 20.
  destruct (Z.sgn T <? 0) eqn:Es.
  - apply Z.ltb_lt in Es. assert (HT : T < 0) by lia.
    replace (Z.sgn T) with (-1) by lia. replace (Z.abs T) with (- T) by lia.
    assert (Hq : (T - 5) / 10 < 0) by (apply Z.div_lt_upper_bound; lia).
    replace (Z.sgn ((T - 5) / 10) <? 0) with true by (symmetry; apply Z.ltb_lt; lia).
    cbn [andb]. destruct ((T - 5) mod 10 =? 0) eqn:Em; cbn [negb].
    + apply Z.eqb_eq in Em. Z.div_mod_to_equations. lia.
    + apply Z.eqb_neq in Em. Z.div_mod_to_equations. lia.
  - apply Z.ltb_ge in Es. assert (HT : 0 <= T) by lia.
    replace (Z.abs T) with T by lia.
    assert (Hq : 0 <= (T + 5) / 10) by (apply Z.div_pos; lia).
    replace (Z.sgn ((T + 5) / 10) <? 0) with false by (symmetry; apply Z.ltb_ge; lia).
    cbn [andb]. destruct (Z.eq_dec T 0) as [->|Hne]; [reflexivity|].
    replace (Z.sgn T) with 1 by lia. Z.div_mod_to_equations. lia.
Qed.

Lemma trunc_then_round (v M : Z) :
  0 < M -> Zround_away (Z.quot v M) 10 = Zround_away v (10 * M).
Proof.
  intros HM. unfold Zround_away.
  rewrite (Z.quot_div v M) by lia.
  replace (Z.sgn M) with 1 by lia. replace (Z.abs M) with M by lia. rewrite Z.mul_1_r.
  assert (HA : 0 <= Z.abs v) by lia.
  assert (Ht : 0 <= Z.abs v / M) by (apply Z.div_pos; lia).
  assert (Hv0 : v = 0 -> Z.abs v / M = 0) by (intros ->; reflexivity).
  assert (HX : (2 * Z.abs v + 10 * M) / (2 * (10 * M)) = (2 * (Z.abs v / M) + 10) / (2 * 10)).
  { replace (2 * Z.abs v + 10 * M) with (2 * (Z.abs v + 5 * M)) by lia.
    replace (2 * (Z.abs v / M) + 10) with (2 * (Z.abs v / M + 5)) by lia.
    rewrite !Z.div_mul_cancel_l by lia.
    rewrite (Z.mul_comm 10 M), <- Z.div_div by lia.
    rewrite Z.div_add by lia. reflexivity. }
  rewrite HX. generalize dependent (Z.abs v / M). intros t Ht Hv0 _.
  replace (Z.abs (Z.sgn v * t)) with t by (destruct v; cbn [Z.sgn]; lia).
  destruct (Z.eq_dec t 0) as [E|E].
  - rewrite E. change ((2 * 0 + 10) / (2 * 10)) with 0. lia.
  - replace (Z.sgn (Z.sgn v * t)) with (Z.sgn v); [reflexivity|].
    assert (0 < t) by lia. destruct v; cbn [Z.sgn]; lia.
Qed.

Lemma nearest_away_frac (n : Z) (d : positive) :
  nearest_away (n # d) = Zround_away n (Zpos d).
Proof.
  unfold nearest_away, Zround_away, Qfloor. cbn [Qnum Qden Qopp Qplus].
  destruct (n <? 0) eqn:E.
  - apply Z.ltb_lt in E. replace (Z.sgn n) with (-1) by lia.
    replace (Z.abs n) with (- n) by lia.
    replace (- n * 2 + 1 * Z.pos d) with (2 * - n + Z.pos d) by lia.
    replace (Z.pos (d * 2)) with (2 * Z.pos d) by lia. lia.
  - apply Z.ltb_ge in E. replace (Z.abs n) with n by lia.
    replace (n * 2 + 1 * Z.pos d) with (2 * n + Z.pos d) by lia.
    replace (Z.pos (d * 2)) with (2 * Z.pos d) by lia.
    destruct (Z.eq_dec n 0) as [->|Hn].
    + cbn [Z.sgn]. rewrite Z.mul_0_l. apply Z.div_small. lia.
    + replace (Z.sgn n) with 1 by lia. lia.
Qed.

Lemma nearest_away_comp (q q' : Q) : (q == q')%Q -> nearest_away q = nearest_away q'.
Proof.
  intros H. unfold nearest_away.
  assert (Hs : (Qnum q <? 0) = (Qnum q' <? 0)).
  { unfold Qeq in H. destruct (Qnum q <? 0) eqn:E1, (Qnum q' <? 0) eqn:E2; try reflexivity.
    - apply Z.ltb_lt in E1. apply Z.ltb_ge in E2. nia.
    - apply Z.ltb_ge in E1. apply Z.ltb_lt in E2. nia. }
  rewrite Hs. destruct (Qnum q' <? 0); rewrite H; reflexivity.
Qed.

Lemma nearest_away_div (n M : Z) :
  0 < M -> nearest_away (inject_Z n / inject_Z M) = Zround_away n M.
Proof.
  intros HM. rewrite <- (Z2Pos.id M HM) at 2. rewrite <- nearest_away_frac.
  apply nearest_away_comp. rewrite (Qmake_Qdiv n (Z.to_pos M)).
  rewrite Z2Pos.id by exact HM. reflexivity.
Qed.

Lemma nearest_away_Z (n : Z) : nearest_away (inject_Z n) = n.
Proof.
  unfold inject_Z. rewrite nearest_away_frac. unfold Zround_away.
  replace (2 * Z.abs n + 1) with (1 + Z.abs n * 2) by lia.
  rewrite Z.div_add by lia. rewrite Z.div_small by lia. lia.
Qed.

Lemma nearest_away_opp (q : Q) : nearest_away (- q) = - nearest_away q.
Proof.
  destruct q as [n d]. change (- (n # d))%Q with ((- n) # d).
  rewrite !nearest_away_frac. unfold Zround_away.
  rewrite Z.sgn_opp, Z.abs_opp. lia.
Qed.

(** The error of rounding to the nearest integer. *)
Lemma nearest_away_error (q : Q) : (Qabs (inject_Z (nearest_away q) - q) <= 1 # 2)%Q.
Proof.
  apply Qabs_Qle_condition. unfold nearest_away.
  destruct (Qnum q <? 0).
  - pose proof (Qfloor_le (- q + (1 # 2))) as H1.
    pose proof (Qlt_floor (- q + (1 # 2))) as H2.
    rewrite inject_Z_plus in H2. change (inject_Z 1) with 1%Q in H2.
    rewrite inject_Z_opp. split; lra.
  - pose proof (Qfloor_le (q + (1 # 2))) as H1.
    pose proof (Qlt_floor (q + (1 # 2))) as H2.
    rewrite inject_Z_plus in H2. change (inject_Z 1) with 1%Q in H2. split; lra.
Qed.

Lemma pow10_nz (z : Z) : ~ (10 ^ z == 0)%Q.
Proof. apply Qpower_not_0. discriminate. Qed.

Lemma pow10_pos (z : Z) : (0 < 10 ^ z)%Q.
Proof. apply Qpower_0_lt. reflexivity. Qed.

Lemma pow10_add (a b : Z) : (10 ^ (a + b) == 10 ^ a * 10 ^ b)%Q.
Proof. apply Qpower_plus. discriminate. Qed.

Lemma pow10_opp (a : Z) : (10 ^ (- a) == / 10 ^ a)%Q.
Proof. apply Qpower_opp. Qed.

Lemma pow10_inject (k : Z) : 0 <= k -> (inject_Z (10 ^ k) == 10 ^ k)%Q.
Proof. intros Hk. rewrite Zpower_Qpower by exact Hk. reflexivity. Qed.

Lemma pow10_Zpos (k : Z) : 0 <= k -> 0 < 10 ^ k.
Proof. intros Hk. apply Z.pow_pos_nonneg; lia. Qed.

Lemma inject_Z_nz (b : Z) : b <> 0 -> ~ (inject_Z b == 0)%Q.
Proof. intros Hb H. apply Hb. unfold Qeq in H. cbn in H. lia. Qed.

(** A quotient of integers with the sign moved to the numerator. *)
Lemma signed_quotient (a b : Z) :
  b <> 0 -> (inject_Z (a * Z.sgn b) / inject_Z (Z.abs b) == inject_Z a / inject_Z b)%Q.
Proof.
  intros Hb. pose proof (inject_Z_nz b Hb) as Hq.
  destruct (Z.lt_trichotomy b 0) as [Hlt|[->|Hgt]]; [|congruence|].
  - replace (Z.sgn b) with (-1) by lia. replace (Z.abs b) with (- b) by lia.
    replace (a * -1) with (- a) by lia. rewrite !inject_Z_opp. field. exact Hq.
  - replace (Z.sgn b) with 1 by lia. replace (Z.abs b) with b by lia.
    rewrite Z.mul_1_r. reflexivity.
Qed.

(** The number that [QuoRem] divides, in both of its cases. *)
Lemma scaled_quotient (d d2 : Decimal) (p : Z) :
  value d2 <> 0 ->
  let e := exp d - exp d2 - - p in
  let aa := if e <? 0 then value d else value d * 10 ^ e in
  let bb := if e <? 0 then value d2 * 10 ^ (- e) else value d2 in
  bb <> 0 /\ Z.sgn bb = Z.sgn (value d2) /\ Z.sgn aa = Z.sgn (value d) /\
  (inject_Z aa / inject_Z bb == toQ d / toQ d2 * 10 ^ p)%Q.
Proof.
  intros Hb e aa bb. unfold toQ.
  pose proof (inject_Z_nz _ Hb) as Hq.
  pose proof (pow10_nz (exp d)) as N1. pose proof (pow10_nz (exp d2)) as N2.
  pose proof (pow10_nz p) as N3.
  destruct (e <? 0) eqn:E; subst aa bb.
  - apply Z.ltb_lt in E. pose proof (pow10_Zpos (- e) ltac:(lia)) as HP.
    split; [nia|]. split; [rewrite Z.sgn_mul; lia|]. split; [reflexivity|].
    rewrite inject_Z_mult, pow10_inject by lia.
    replace (- e) with (- exp d + (exp d2 + - p)) by lia.
    rewrite !pow10_add, !pow10_opp.
    field. repeat split; assumption.
  - apply Z.ltb_ge in E. pose proof (pow10_Zpos e ltac:(lia)) as HP.
    split; [exact Hb|]. split; [reflexivity|]. split; [rewrite Z.sgn_mul; lia|].
    rewrite inject_Z_mult, pow10_inject by lia.
    replace e with (exp d + (- exp d2 + p)) by lia.
    rewrite !pow10_add, !pow10_opp.
    field. repeat split; assumption.
Qed.

(** The rounding decision of [DivRound] on the remainder [r]. *)
Lemma DivRound_tail (r bb q s p : Z) :
  match Z.shiftl (Z.abs r) 1 ?= Z.abs bb with
  | Lt => Some (mkDecimal q (- p))
  | _ =>
      if s <? 0 then Some (Sub (mkDecimal q (- p)) (New 1 (- p)))
      else Some (Add (mkDecimal q (- p)) (New 1 (- p)))
  end =
  Some (mkDecimal (if 2 * Z.abs r <? Z.abs bb then q
                   else if s <? 0 then q - 1 else q + 1) (- p)).
Proof.
  rewrite Z.shiftl_mul_pow2 by lia. change (2 ^ 1) with 2.
  rewrite (Z.mul_comm (Z.abs r) 2).
  unfold Sub, Add, RescalePair, New. cbn [value exp]. rewrite Z.eqb_refl.
  unfold Z.ltb. destruct (2 * Z.abs r ?= Z.abs bb); destruct (s ?= 0); reflexivity.
Qed.

(** [DivRound] returns the quotient rounded half away from zero at
    [p] digits. *)
Lemma DivRound_value (d d2 : Decimal) (p : Z) :
  value d2 <> 0 -> int32_range (exp d - exp d2 - - p) = true ->
  DivRound d d2 p = Some (mkDecimal (nearest_away (toQ d / toQ d2 * 10 ^ p)%Q) (- p)).
Proof.
  intros Hb Hr.
  destruct (scaled_quotient d d2 p Hb) as [Hbb [Hsb [Hsa Hq]]].
  rewrite <- (nearest_away_comp _ _ Hq).
  rewrite <- (nearest_away_comp _ _ (signed_quotient _ _ Hbb)).
  rewrite nearest_away_div by lia. rewrite <- (quot_round_away _ _ Hbb).
  rewrite Hsa, Hsb. clear Hq Hsa Hsb.
  unfold DivRound, QuoRem.
  replace (Z.sgn (value d2) =? 0) with false by (symmetry; apply Z.eqb_neq; lia).
  rewrite Hr. cbn [negb].
  destruct (exp d - exp d2 - - p <? 0) eqn:E.
  - apply Z.ltb_lt in E.
    unfold Cmp, Abs, RescalePair, rescale. cbn [value exp].
    replace (exp d + p =? exp d2) with false by (symmetry; apply Z.eqb_neq; lia).
    replace (Z.min (exp d + p) (exp d2)) with (exp d + p) by lia.
    rewrite Z.eqb_refl. cbn [negb value exp].
    replace (exp d2 =? exp d + p) with false by (symmetry; apply Z.eqb_neq; lia).
    replace (exp d2 <? exp d + p) with false by (symmetry; apply Z.ltb_ge; lia).
    cbn [value].
    replace (Z.abs (exp d + p - exp d2)) with (- (exp d - exp d2 - - p)) by lia.
    pose proof (pow10_Zpos (- (exp d - exp d2 - - p)) ltac:(lia)) as HP.
    replace (Z.abs (value d2) * 10 ^ (- (exp d - exp d2 - - p)))
      with (Z.abs (value d2 * 10 ^ (- (exp d - exp d2 - - p))))
      by (rewrite Z.abs_mul; f_equal; lia).
    apply DivRound_tail.
  - apply Z.ltb_ge in E.
    unfold Cmp, Abs. cbn [value exp].
    replace (- p + exp d2 + p =? exp d2) with true by (symmetry; apply Z.eqb_eq; lia).
    apply DivRound_tail.
Qed.

Lemma Zround_away_mul10 (N : Z) : Zround_away (N * 10) 10 = N.
Proof.
  unfold Zround_away. rewrite Z.sgn_mul, Z.abs_mul. change (Z.sgn 10) with 1.
  change (Z.abs 10) with 10. change (2 * 10) with 20.
  replace (2 * (Z.abs N * 10) + 10) with (10 + Z.abs N * 20) by lia.
  rewrite Z.div_add by lia. change (10 / 20) with 0. lia.
Qed.

(** [Round] rounds half away from zero at [p] digits. *)
Lemma Round_value (d : Decimal) (p : Z) :
  Round d p = mkDecimal (nearest_away (toQ d * 10 ^ p)%Q) (- p).
Proof.
  unfold Round, toQ.
  pose proof (pow10_nz (exp d)) as N1. pose proof (pow10_nz p) as N3.
  destruct (exp d =? - p) eqn:E.
  - apply Z.eqb_eq in E. destruct d as [v e]. cbn [value exp] in *. subst e.
    f_equal. symmetry. rewrite <- (nearest_away_Z v) at 2.
    apply nearest_away_comp. rewrite pow10_opp. field. exact N3.
  - apply Z.eqb_neq in E. rewrite round_digit_spec.
    assert (Hexp : exp (rescale d (- p - 1)) + 1 = - p).
    { unfold rescale. destruct (exp d =? - p - 1) eqn:E1.
      - apply Z.eqb_eq in E1. lia.
      - destruct (exp d <? - p - 1); cbn [exp]; lia. }
    rewrite Hexp. f_equal.
    destruct (Z_lt_le_dec (exp d) (- p)) as [Hlt|Hge].
    + (* digits are dropped *)
      set (j := - (exp d + p)). assert (Hj : 1 <= j) by (unfold j; lia).
      pose proof (pow10_Zpos (j - 1) ltac:(lia)) as HP.
      assert (HT : value (rescale d (- p - 1)) = Z.quot (value d) (10 ^ (j - 1))).
      { unfold rescale. destruct (exp d =? - p - 1) eqn:E1.
        - apply Z.eqb_eq in E1. replace (j - 1) with 0 by (unfold j; lia).
          rewrite Z.quot_1_r. reflexivity.
        - apply Z.eqb_neq in E1.
          replace (exp d <? - p - 1) with true by (symmetry; apply Z.ltb_lt; lia).
          cbn [value]. do 2 f_equal. unfold j. lia. }
      rewrite HT, trunc_then_round by exact HP.
      replace (10 * 10 ^ (j - 1)) with (10 ^ j)
        by (replace j with (1 + (j - 1)) at 1 by lia; rewrite Z.pow_add_r by lia; reflexivity).
      rewrite <- nearest_away_div by (apply pow10_Zpos; lia).
      apply nearest_away_comp. rewrite pow10_inject by lia.
      replace j with (- exp d + - p) by (unfold j; lia).
      rewrite !pow10_add, !pow10_opp. field. split; assumption.
    + (* no digit is dropped *)
      set (k := exp d + p). assert (Hk : 1 <= k) by (unfold k; lia).
      assert (HT : value (rescale d (- p - 1)) = value d * 10 ^ k * 10).
      { unfold rescale.
        replace (exp d =? - p - 1) with false by (symmetry; apply Z.eqb_neq; lia).
        replace (exp d <? - p - 1) with false by (symmetry; apply Z.ltb_ge; lia).
        cbn [value]. replace (Z.abs (- p - 1 - exp d)) with (k + 1) by (unfold k; lia).
        rewrite Z.pow_add_r by lia. change (10 ^ 1) with 10. lia. }
      rewrite HT, Zround_away_mul10.
      rewrite <- (nearest_away_Z (value d * 10 ^ k)).
      apply nearest_away_comp. rewrite inject_Z_mult, pow10_inject by lia.
      replace (exp d) with (k + - p) by (unfold k; lia).
      rewrite !pow10_add, !pow10_opp. field. exact N3.
Qed.

Lemma toQ_nz (d : Decimal) : value d <> 0 -> ~ (toQ d == 0)%Q.
Proof.
  intros Hv H. unfold toQ in H. apply Qmult_integral in H as [H|H].
  - exact (inject_Z_nz _ Hv H).
  - exact (pow10_nz _ H).
Qed.

Lemma toQ_Mul (d d2 p : Decimal) : Mul d d2 = Some p -> (toQ p == toQ d * toQ d2)%Q.
Proof.
  unfold Mul. destruct (int32_range (exp d + exp d2)); [|discriminate].
  intros [= <-]. unfold toQ. cbn [value exp].
  rewrite inject_Z_mult, pow10_add. ring.
Qed.

Lemma toQ_Neg (d : Decimal) : (toQ (Neg d) == - toQ d)%Q.
Proof. unfold toQ, Neg. cbn [value exp]. rewrite inject_Z_opp. ring. Qed.

Lemma Qround_away_comp (p : Z) (q q' : Q) :
  (q == q')%Q -> (Qround_away p q == Qround_away p q')%Q.
Proof.
  intros H. unfold Qround_away.
  rewrite (nearest_away_comp (q * 10 ^ p) (q' * 10 ^ p)); [reflexivity|].
  rewrite H. reflexivity.
Qed.

Lemma Qround_away_opp (p : Z) (q : Q) : (Qround_away p (- q) == - Qround_away p q)%Q.
Proof.
  unfold Qround_away.
  rewrite (nearest_away_comp (- q * 10 ^ p) (- (q * 10 ^ p))) by ring.
  rewrite nearest_away_opp, inject_Z_opp. ring.
Qed.

(** Rounding moves a number by at most half a unit of the last digit. *)
Lemma Qround_away_error (p : Z) (q : Q) :
  (Qabs (Qround_away p q - q) <= (1 # 2) * 10 ^ (- p))%Q.
Proof.
  unfold Qround_away.
  pose proof (nearest_away_error (q * 10 ^ p)) as H.
  pose proof (pow10_pos (- p)) as Hp. pose proof (pow10_nz p) as Hn.
  assert (E : (inject_Z (nearest_away (q * 10 ^ p)) * 10 ^ (- p) - q ==
               (inject_Z (nearest_away (q * 10 ^ p)) - q * 10 ^ p) * 10 ^ (- p))%Q).
  { rewrite pow10_opp. field. exact Hn. }
  rewrite E, Qabs_Qmult, (Qabs_pos (10 ^ (- p))) by (apply Qlt_le_weak; exact Hp).
  apply Qmult_le_compat_r; [exact H|apply Qlt_le_weak; exact Hp].
Qed.

(** A number with at most [p] fractional digits is its own rounding. *)
Lemma Qround_away_fixed (p : Z) (q : Q) (n : Z) :
  (q * 10 ^ p == inject_Z n)%Q -> (Qround_away p q == q)%Q.
Proof.
  intros H. unfold Qround_away. rewrite (nearest_away_comp _ _ H), nearest_away_Z.
  rewrite <- H, pow10_opp. field. apply pow10_nz.
Qed.

Lemma toQ_digits (d : Decimal) (p : Z) :
  - p <= exp d -> (toQ d * 10 ^ p == inject_Z (value d * 10 ^ (exp d + p)))%Q.
Proof.
  intros H. unfold toQ. rewrite inject_Z_mult, pow10_inject by lia.
  rewrite pow10_add. ring.
Qed.

Lemma toQ_convert_value (a rF rT : Decimal) :
  toQ (convert_value a rF rT) = Qround_away 4 (Qround_away 16 (exact_quotient a rF rT)).
Proof. reflexivity. Qed.

(** The arithmetic of [handleConvert]: [Mul], [Div] and [Round]. *)
Lemma convert_computes (a rF rT : Decimal) :
  value rF <> 0 -> no_overflow a rF rT = true ->
  exists r, Mul a rT ≫= (fun p => Div p rF) = Some r /\
            Round r 4 = convert_value a rF rT.
Proof.
  intros Hv Hno. unfold no_overflow in Hno. apply andb_true_iff in Hno as [H1 H2].
  unfold Mul at 1. rewrite H1. cbn [mbind option_bind].
  unfold Div. rewrite DivRound_value; [|exact Hv|exact H2].
  eexists. split; [reflexivity|].
  rewrite Round_value. unfold convert_value. change (- (4)) with (-4).
  apply (f_equal (fun v => mkDecimal v (-4))).
  apply nearest_away_comp. apply Qmult_comp; [|reflexivity].
  unfold toQ at 1. cbn [value exp]. unfold Qround_away, DivisionPrecision.
  apply Qmult_comp; [|reflexivity].
  assert (E : nearest_away (toQ (mkDecimal (value a * value rT) (exp a + exp rT)) / toQ rF * 10 ^ 16) =
              nearest_away (exact_quotient a rF rT * 10 ^ 16)).
  { apply nearest_away_comp. apply Qmult_comp; [|reflexivity].
    unfold exact_quotient, toQ. cbn [value exp].
    rewrite inject_Z_mult, pow10_add. field.
    split; [apply pow10_nz|apply inject_Z_nz; exact Hv]. }
  rewrite E. reflexivity.
Qed.

(** Both values at the smaller of the two exponents. *)
Lemma Cmp_scaled (d1 d2 : Decimal) :
  let m := Z.min (exp d1) (exp d2) in
  Cmp d1 d2 = (value d1 * 10 ^ (exp d1 - m) ?= value d2 * 10 ^ (exp d2 - m)).
Proof.
  cbv zeta. unfold Cmp, RescalePair, rescale.
  destruct (exp d1 =? exp d2) eqn:E.
  - apply Z.eqb_eq in E. rewrite E, Z.min_id, Z.sub_diag. change (10 ^ 0) with 1.
    rewrite !Z.mul_1_r. reflexivity.
  - apply Z.eqb_neq in E.
    destruct (Z.min (exp d1) (exp d2) =? exp d1) eqn:M; cbn [negb].
    + apply Z.eqb_eq in M. rewrite M.
      replace (exp d2 =? exp d1) with false by (symmetry; apply Z.eqb_neq; lia).
      replace (exp d2 <? exp d1) with false by (symmetry; apply Z.ltb_ge; lia).
      cbn [value]. rewrite Z.sub_diag. change (10 ^ 0) with 1. rewrite Z.mul_1_r.
      replace (Z.abs (exp d1 - exp d2)) with (exp d2 - exp d1) by lia. reflexivity.
    + apply Z.eqb_neq in M.
      replace (Z.min (exp d1) (exp d2)) with (exp d2) by lia.
      replace (exp d1 =? exp d2) with false by (symmetry; apply Z.eqb_neq; lia).
      replace (exp d1 <? exp d2) with false by (symmetry; apply Z.ltb_ge; lia).
      cbn [value]. rewrite Z.sub_diag. change (10 ^ 0) with 1. rewrite Z.mul_1_r.
      replace (Z.abs (exp d2 - exp d1)) with (exp d1 - exp d2) by lia. reflexivity.
Qed.

Lemma toQ_scaled (d : Decimal) (m : Z) :
  m <= exp d -> (toQ d == inject_Z (value d * 10 ^ (exp d - m)) * 10 ^ m)%Q.
Proof.
  intros H. unfold toQ. rewrite inject_Z_mult, pow10_inject by lia.
  replace (exp d) with ((exp d - m) + m) at 1 by lia. rewrite pow10_add. ring.
Qed.

(** [Equal] of the library is equality of the numbers. *)
Lemma Equal_toQ (d1 d2 : Decimal) : Equal d1 d2 = true <-> (toQ d1 == toQ d2)%Q.
Proof.
  unfold Equal. rewrite Cmp_scaled.
  set (m := Z.min (exp d1) (exp d2)).
  rewrite (toQ_scaled d1 m), (toQ_scaled d2 m) by (unfold m; lia).
  set (a := value d1 * 10 ^ (exp d1 - m)). set (b := value d2 * 10 ^ (exp d2 - m)).
  split.
  - destruct (a ?= b) eqn:C; try discriminate. intros _.
    apply Z.compare_eq in C. rewrite C. reflexivity.
  - intros H. apply Qmult_inj_r in H; [|apply pow10_nz].
    apply (proj1 (inject_Z_injective a b)) in H. rewrite H, Z.compare_refl. reflexivity.
Qed.

End decimal_facts.

(* ===================================================================== *)
(** * Properties of the conversion                                        *)
(* ===================================================================== *)

Import decimal_facts.


Lemma amount_of_nonzero (s : string) (x : Decimal) :
  NewFromString s = Some x -> IsZero x = false -> amount_of s = x.
Proof.
  intros Hs Hz. unfold amount_of. rewrite Hs.
  change (default Zero (Some x)) with x. rewrite Hz. reflexivity.
Qed.

Lemma amount_of_defaulted (s : string) :
  NewFromString s = None \/ (exists d, NewFromString s = Some d /\ IsZero d = true) ->
  amount_of s = NewFromInt 1.
Proof.
  intros [H|[d [H Hz]]]; unfold amount_of; rewrite H.
  - reflexivity.
  - change (default Zero (Some d)) with d. rewrite Hz. reflexivity.
Qed.

Lemma IsZero_false (d : Decimal) : IsZero d = false <-> value d <> 0.
Proof. unfold IsZero, Sign. rewrite Z.eqb_neq. lia. Qed.

(** The two roundings move the quotient by at most [rounding_error]. *)
Lemma convert_value_error (a rF rT : Decimal) :
  (Qabs (toQ (convert_value a rF rT) - exact_quotient a rF rT) <= rounding_error)%Q.
Proof.
  rewrite toQ_convert_value. set (e := exact_quotient a rF rT).
  assert (E : (Qround_away 4 (Qround_away 16 e) - e ==
               (Qround_away 4 (Qround_away 16 e) - Qround_away 16 e) + (Qround_away 16 e - e))%Q)
    by ring.
  rewrite E. eapply Qle_trans; [apply Qabs_triangle|].
  unfold rounding_error.
  apply Qplus_le_compat; [apply (Qround_away_error 4)|apply (Qround_away_error 16)].
Qed.

Lemma exact_quotient_Neg (a rF rT : Decimal) :
  value rF <> 0 -> (exact_quotient (Neg a) rF rT == - exact_quotient a rF rT)%Q.
Proof.
  intros Hv. unfold exact_quotient. rewrite toQ_Neg. field. apply toQ_nz. exact Hv.
Qed.

Lemma convert_value_Neg (a rF rT : Decimal) :
  value rF <> 0 -> convert_value (Neg a) rF rT = Neg (convert_value a rF rT).
Proof.
  intros Hv. unfold convert_value, Neg. cbn [value exp].
  apply (f_equal (fun v => mkDecimal v (-4))).
  rewrite <- nearest_away_opp. apply nearest_away_comp.
  rewrite (Qround_away_comp 16 _ _ (exact_quotient_Neg a rF rT Hv)), Qround_away_opp. ring.
Qed.

Lemma exact_quotient_same (a r : Decimal) :
  value r <> 0 -> (exact_quotient a r r == toQ a)%Q.
Proof. intros Hv. unfold exact_quotient. field. apply toQ_nz. exact Hv. Qed.

Lemma toQ_rounds_to_itself (d : Decimal) (p : Z) :
  - p <= exp d -> (Qround_away p (toQ d) == toQ d)%Q.
Proof. intros H. eapply Qround_away_fixed. apply toQ_digits. exact H. Qed.


Section ConvertFacts.
Context {RT : Runtime}.

Lemma QueryRow_rate_stored (pool : Pool) (code : string) (row : RateRow) :
  pool_up pool = true -> exchange_rates (pool_db pool) !! code = Some row ->
  QueryRow_rate pool code = Some (rate_to_base row).
Proof. intros Hup Hrow. unfold QueryRow_rate. rewrite Hup, Hrow. reflexivity. Qed.

Lemma bpchar_eqb_refl (c : string) : bpchar_eqb c c = true.
Proof. apply String.eqb_refl. Qed.

(** Two codes of three bytes that are equal as [CHAR(3)] values are the
    same string. *)
Lemma bpchar_eqb_three_bytes (a b : string) :
  String.length a = 3%nat -> String.length b = 3%nat -> bpchar_eqb a b = true -> a = b.
Proof.
  intros Ha Hb H. apply String.eqb_eq in H.
  destruct a as [|a1 [|a2 [|a3 [|]]]]; try discriminate Ha.
  destruct b as [|b1 [|b2 [|b3 [|]]]]; try discriminate Hb.
  cbn [rtrim] in H.
  repeat match type of H with
         | context [Ascii.eqb ?c " "] => destruct (Ascii.eqb_spec c " ")
         end; subst; congruence.
Qed.

Lemma filter_scan_elem (m : gmap string RateRow) (f : string * RateRow -> bool)
    (kr : string * RateRow) :
  In kr (List.filter f (map_to_list m)) <-> m !! kr.1 = Some kr.2 /\ f kr = true.
Proof.
  rewrite filter_In, <- list_elem_of_In. destruct kr as [k r].
  rewrite elem_of_map_to_list. reflexivity.
Qed.

(** No stored code equals [code] up to trailing blanks: no row. *)
Lemma QueryRow_rate_missing (pool : Pool) (code : string) :
  no_stored_rate (exchange_rates (pool_db pool)) code -> QueryRow_rate pool code = None.
Proof.
  intros Hno. unfold QueryRow_rate. destruct (pool_up pool); [|reflexivity].
  destruct (exchange_rates (pool_db pool) !! code) as [row|] eqn:Hrow.
  - pose proof (bpchar_eqb_refl code) as Hr. rewrite (Hno code row Hrow) in Hr. discriminate.
  - destruct (List.filter _ _) as [|kr l] eqn:Hf; [reflexivity|].
    assert (Hin : In kr (kr :: l)) by (left; reflexivity).
    rewrite <- Hf in Hin. apply filter_scan_elem in Hin as [Hk Hb].
    rewrite (Hno _ _ Hk) in Hb. discriminate.
Qed.

(** A stored code equals [code] up to trailing blanks, and the stored codes
    are three bytes long: its row is the one found. *)
Lemma QueryRow_rate_blanks (pool : Pool) (code : string) (row : RateRow) :
  pool_up pool = true ->
  three_byte_codes (exchange_rates (pool_db pool)) ->
  stored_rate (exchange_rates (pool_db pool)) code row ->
  QueryRow_rate pool code = Some (rate_to_base row).
Proof.
  intros Hup H3 [c [Hc Hb]]. unfold QueryRow_rate. rewrite Hup.
  assert (Hsame : forall k r, exchange_rates (pool_db pool) !! k = Some r ->
                    bpchar_eqb k code = true -> r = row).
  { intros k r Hk Hkb.
    assert (k = c).
    { apply bpchar_eqb_three_bytes; [exact (H3 _ _ Hk)|exact (H3 _ _ Hc)|].
      apply String.eqb_eq in Hkb, Hb. apply String.eqb_eq. congruence. }
    subst k. congruence. }
  destruct (exchange_rates (pool_db pool) !! code) as [row'|] eqn:Hrow.
  - rewrite (Hsame code row' Hrow (bpchar_eqb_refl code)). reflexivity.
  - destruct (List.filter _ _) as [|kr l] eqn:Hf.
    + assert (Hin : In (c, row) []); [|destruct Hin].
      rewrite <- Hf. apply filter_scan_elem. split; [exact Hc|exact Hb].
    + assert (Hin : In kr (kr :: l)) by (left; reflexivity).
      rewrite <- Hf in Hin. apply filter_scan_elem in Hin as [Hk Hkb].
      cbn [head fmap option_fmap option_map]. rewrite (Hsame _ _ Hk Hkb). reflexivity.
Qed.

(** [handleConvert] on two stored currencies, the divisor not zero. *)
Lemma handleConvert_found (pool : Pool) (q_from q_to q_amount : string) (rowF rowT : RateRow) :
  pool_up pool = true ->
  exchange_rates (pool_db pool) !! ToUpper q_from = Some rowF ->
  exchange_rates (pool_db pool) !! ToUpper q_to = Some rowT ->
  value (rate_to_base rowF) <> 0 ->
  no_overflow (amount_of q_amount) (rate_to_base rowF) (rate_to_base rowT) = true ->
  response (handleConvert pool q_from q_to q_amount) =
  Json (ConvertBody (ToUpper q_from) (ToUpper q_to) (amount_of q_amount)
          (convert_value (amount_of q_amount) (rate_to_base rowF) (rate_to_base rowT))).
Proof.
  intros Hup HF HT Hv Hno. unfold handleConvert. cbn [response].
  rewrite (QueryRow_rate_stored pool _ rowF Hup HF), (QueryRow_rate_stored pool _ rowT Hup HT).
  fold (amount_of q_amount).
  destruct (convert_computes (amount_of q_amount) _ _ Hv Hno) as [r [Hr HR]].
  rewrite Hr, HR. reflexivity.
Qed.

(** [handleConvert] on the rates the two queries return. *)
Lemma handleConvert_rates (pool : Pool) (q_from q_to q_amount : string) (rF rT : Decimal) :
  QueryRow_rate pool (ToUpper q_from) = Some rF ->
  QueryRow_rate pool (ToUpper q_to) = Some rT ->
  value rF <> 0 ->
  no_overflow (amount_of q_amount) rF rT = true ->
  response (handleConvert pool q_from q_to q_amount) =
  Json (ConvertBody (ToUpper q_from) (ToUpper q_to) (amount_of q_amount)
          (convert_value (amount_of q_amount) rF rT)).
Proof.
  intros HF HT Hv Hno. unfold handleConvert. cbn [response].
  rewrite HF, HT. fold (amount_of q_amount).
  destruct (convert_computes (amount_of q_amount) _ _ Hv Hno) as [r [Hr HR]].
  rewrite Hr, HR. reflexivity.
Qed.

Lemma handleConvert_missing (pool : Pool) (q_from q_to q_amount : string) :
  no_stored_rate (exchange_rates (pool_db pool)) (ToUpper q_from) \/
  no_stored_rate (exchange_rates (pool_db pool)) (ToUpper q_to) ->
  response (handleConvert pool q_from q_to q_amount) = HttpError "Divisa no encontrada" 404.
Proof.
  intros H. unfold handleConvert. cbn [response].
  destruct H as [H|H]; rewrite (QueryRow_rate_missing pool _ H).
  - reflexivity.
  - destruct (QueryRow_rate pool (ToUpper q_from)); reflexivity.
Qed.

(** The amount enters [handleConvert] through [amount_of] alone. *)
Lemma handleConvert_amount (pool : Pool) (q_from q_to s s' : string) :
  amount_of s = amount_of s' ->
  handleConvert pool q_from q_to s = handleConvert pool q_from q_to s'.
Proof.
  intros H. unfold handleConvert. fold (amount_of s). fold (amount_of s'). rewrite H. reflexivity.
Qed.

End ConvertFacts.

(* ===================================================================== *)
(** * The claims about the conversion                                     *)
(* ===================================================================== *)

Section ConvertClaims.
Context {RT : Runtime}.

(** C4, as amended: a currency has a stored rate when a stored code equals
    the code of the request in upper case, trailing blanks disregarded as
    in the comparison of [CHAR(3)] values. When both currencies have a
    stored rate, the rate of [from] is not zero and no exponent overflows,
    [handleConvert] answers with the amount it computes with (1 for an
    absent, unreadable or zero parameter) and with the quotient
    amount * rate(to) / rate(from) rounded half away from zero to 16 digits
    and then to 4; the result is within 0.00005 + 0.5e-16 of the quotient.
    This holds for a stored code identical to the code of the request, and,
    on a store whose codes are three bytes long, for one that equals it up
    to trailing blanks. When either currency has no stored rate the answer
    is 404 and carries no result. *)
Theorem C4_conversion_contract (pool : Pool) (q_from q_to q_amount : string) :
  pool_up pool = true ->
  (forall rowF rowT,
     exchange_rates (pool_db pool) !! ToUpper q_from = Some rowF ->
     exchange_rates (pool_db pool) !! ToUpper q_to = Some rowT ->
     value (rate_to_base rowF) <> 0 ->
     no_overflow (amount_of q_amount) (rate_to_base rowF) (rate_to_base rowT) = true ->
     response (handleConvert pool q_from q_to q_amount) =
       Json (ConvertBody (ToUpper q_from) (ToUpper q_to) (amount_of q_amount)
               (convert_value (amount_of q_amount) (rate_to_base rowF) (rate_to_base rowT))) /\
     (toQ (convert_value (amount_of q_amount) (rate_to_base rowF) (rate_to_base rowT)) ==
      Qround_away 4
        (Qround_away 16
           (exact_quotient (amount_of q_amount) (rate_to_base rowF) (rate_to_base rowT))))%Q /\
     (Qabs (toQ (convert_value (amount_of q_amount) (rate_to_base rowF) (rate_to_base rowT)) -
            exact_quotient (amount_of q_amount) (rate_to_base rowF) (rate_to_base rowT))
      <= rounding_error)%Q) /\
  (three_byte_codes (exchange_rates (pool_db pool)) ->
   forall rowF rowT,
     stored_rate (exchange_rates (pool_db pool)) (ToUpper q_from) rowF ->
     stored_rate (exchange_rates (pool_db pool)) (ToUpper q_to) rowT ->
     value (rate_to_base rowF) <> 0 ->
     no_overflow (amount_of q_amount) (rate_to_base rowF) (rate_to_base rowT) = true ->
     response (handleConvert pool q_from q_to q_amount) =
       Json (ConvertBody (ToUpper q_from) (ToUpper q_to) (amount_of q_amount)
               (convert_value (amount_of q_amount) (rate_to_base rowF) (rate_to_base rowT))) /\
     (toQ (convert_value (amount_of q_amount) (rate_to_base rowF) (rate_to_base rowT)) ==
      Qround_away 4
        (Qround_away 16
           (exact_quotient (amount_of q_amount) (rate_to_base rowF) (rate_to_base rowT))))%Q /\
     (Qabs (toQ (convert_value (amount_of q_amount) (rate_to_base rowF) (rate_to_base rowT)) -
            exact_quotient (amount_of q_amount) (rate_to_base rowF) (rate_to_base rowT))
      <= rounding_error)%Q) /\
  (no_stored_rate (exchange_rates (pool_db pool)) (ToUpper q_from) \/
   no_stored_rate (exchange_rates (pool_db pool)) (ToUpper q_to) ->
   response (handleConvert pool q_from q_to q_amount) = HttpError "Divisa no encontrada" 404).
Proof.
  intros Hup. split; [|split].
  - intros rowF rowT HF HT Hv Hno.
    split; [apply handleConvert_found; assumption|].
    split; [rewrite toQ_convert_value; reflexivity|apply convert_value_error].
  - intros H3 rowF rowT HF HT Hv Hno.
    split.
    { apply handleConvert_rates; try assumption;
        apply QueryRow_rate_blanks; assumption. }
    split; [rewrite toQ_convert_value; reflexivity|apply convert_value_error].
  - apply handleConvert_missing.
Qed.

(** C2, as amended: for a code with a stored rate that is not zero and an
    amount [x] that is not zero, converting from the code to itself answers
    with [x] rounded half away from zero to 16 and then to 4 digits; the
    result is [x] itself, as a number and for the library's [Equal],
    whenever [x] has at most 4 fractional digits. *)
Theorem C2_conversion_identity (pool : Pool) (q_code q_amount : string)
    (row : RateRow) (x : Decimal) :
  pool_up pool = true ->
  exchange_rates (pool_db pool) !! ToUpper q_code = Some row ->
  value (rate_to_base row) <> 0 ->
  NewFromString q_amount = Some x -> IsZero x = false ->
  no_overflow x (rate_to_base row) (rate_to_base row) = true ->
  response (handleConvert pool q_code q_code q_amount) =
    Json (ConvertBody (ToUpper q_code) (ToUpper q_code) x
            (convert_value x (rate_to_base row) (rate_to_base row))) /\
  (toQ (convert_value x (rate_to_base row) (rate_to_base row)) ==
   Qround_away 4 (Qround_away 16 (toQ x)))%Q /\
  (-4 <= exp x ->
   (toQ (convert_value x (rate_to_base row) (rate_to_base row)) == toQ x)%Q /\
   Equal (convert_value x (rate_to_base row) (rate_to_base row)) x = true).
Proof.
  intros Hup Hrow Hv Hs Hz Hno.
  pose proof (amount_of_nonzero q_amount x Hs Hz) as Ha.
  assert (E : (toQ (convert_value x (rate_to_base row) (rate_to_base row)) ==
               Qround_away 4 (Qround_away 16 (toQ x)))%Q).
  { rewrite toQ_convert_value. apply Qround_away_comp, Qround_away_comp.
    apply exact_quotient_same. exact Hv. }
  split; [|split].
  - rewrite <- Ha. apply handleConvert_found; try assumption.
    rewrite Ha. exact Hno.
  - exact E.
  - intros Hexp.
    assert (Hx : (toQ (convert_value x (rate_to_base row) (rate_to_base row)) == toQ x)%Q).
    { rewrite E.
      rewrite (Qround_away_comp 4 _ _ (toQ_rounds_to_itself x 16 ltac:(lia))).
      apply toQ_rounds_to_itself. lia. }
    split; [exact Hx|]. apply Equal_toQ. exact Hx.
Qed.

(** C5, as amended: a negative amount is accepted like a positive one; the
    answer is the quotient rounded to 16 and then to 4 digits, and the
    result for the opposite amount is the opposite result. A zero amount
    is not scaled: the request is answered as the one with amount 1. *)
Theorem C5_negative_and_zero_amounts (pool : Pool) (q_from q_to q_amount : string)
    (rowF rowT : RateRow) (x : Decimal) :
  pool_up pool = true ->
  exchange_rates (pool_db pool) !! ToUpper q_from = Some rowF ->
  exchange_rates (pool_db pool) !! ToUpper q_to = Some rowT ->
  value (rate_to_base rowF) <> 0 ->
  NewFromString q_amount = Some x ->
  (IsZero x = false ->
   no_overflow x (rate_to_base rowF) (rate_to_base rowT) = true ->
   response (handleConvert pool q_from q_to q_amount) =
     Json (ConvertBody (ToUpper q_from) (ToUpper q_to) x
             (convert_value x (rate_to_base rowF) (rate_to_base rowT))) /\
   (toQ (convert_value x (rate_to_base rowF) (rate_to_base rowT)) ==
    Qround_away 4 (Qround_away 16 (toQ x * toQ (rate_to_base rowT) / toQ (rate_to_base rowF))))%Q /\
   convert_value (Neg x) (rate_to_base rowF) (rate_to_base rowT) =
     Neg (convert_value x (rate_to_base rowF) (rate_to_base rowT))) /\
  (IsZero x = true ->
   amount_of q_amount = NewFromInt 1 /\
   handleConvert pool q_from q_to q_amount = handleConvert pool q_from q_to "1").
Proof.
  intros Hup HF HT Hv Hs. split.
  - intros Hz Hno. pose proof (amount_of_nonzero q_amount x Hs Hz) as Ha.
    split; [|split].
    + rewrite <- Ha. apply handleConvert_found; try assumption.
      rewrite Ha. exact Hno.
    + rewrite toQ_convert_value. reflexivity.
    + apply convert_value_Neg. exact Hv.
  - intros Hz.
    assert (Ha : amount_of q_amount = NewFromInt 1).
    { apply amount_of_defaulted. right. exists x. split; assumption. }
    split; [exact Ha|]. apply handleConvert_amount. rewrite Ha. reflexivity.
Qed.

(** C9 (a malformed amount is defaulted): when the parameter [amount] is
    absent (the empty string), unreadable or zero, [handleConvert] computes
    with 1 and answers as it does for [amount=1]: for two stored
    currencies, the rate of [from] not zero, the answer is a 200 that
    carries the amount 1 and the quotient rate(to) / rate(from) rounded to
    16 and then to 4 digits. Whatever the parameter, the answer is never a
    400. *)
Theorem C9_malformed_amount_defaulted (pool : Pool) (q_from q_to q_amount : string) :
  NewFromString q_amount = None \/
  (exists d, NewFromString q_amount = Some d /\ IsZero d = true) ->
  NewFromString "" = None /\
  amount_of q_amount = NewFromInt 1 /\
  handleConvert pool q_from q_to q_amount = handleConvert pool q_from q_to "1" /\
  (forall rowF rowT,
     pool_up pool = true ->
     exchange_rates (pool_db pool) !! ToUpper q_from = Some rowF ->
     exchange_rates (pool_db pool) !! ToUpper q_to = Some rowT ->
     value (rate_to_base rowF) <> 0 ->
     no_overflow (NewFromInt 1) (rate_to_base rowF) (rate_to_base rowT) = true ->
     response (handleConvert pool q_from q_to q_amount) =
       Json (ConvertBody (ToUpper q_from) (ToUpper q_to) (NewFromInt 1)
               (convert_value (NewFromInt 1) (rate_to_base rowF) (rate_to_base rowT))) /\
     (toQ (convert_value (NewFromInt 1) (rate_to_base rowF) (rate_to_base rowT)) ==
      Qround_away 4 (Qround_away 16 (toQ (rate_to_base rowT) / toQ (rate_to_base rowF))))%Q) /\
  (forall s msg, response (handleConvert pool q_from q_to s) <> HttpError msg 400).
Proof.
  intros H. pose proof (amount_of_defaulted q_amount H) as Ha.
  split; [reflexivity|]. split; [exact Ha|].
  split; [apply handleConvert_amount; rewrite Ha; reflexivity|].
  split.
  { intros rowF rowT Hup HF HT Hv Hno. split.
    - rewrite <- Ha. apply handleConvert_found; try assumption.
      rewrite Ha. exact Hno.
    - rewrite toQ_convert_value. apply Qround_away_comp, Qround_away_comp.
      assert (E : (toQ (NewFromInt 1) == 1)%Q) by reflexivity.
      unfold exact_quotient. rewrite E. field. apply (toQ_nz _ Hv). }
  intros s msg. unfold handleConvert. cbn [response].
  destruct (QueryRow_rate pool (ToUpper q_from)), (QueryRow_rate pool (ToUpper q_to));
    try discriminate.
  destruct (Mul _ _ ≫= _); discriminate.
Qed.

(** C8, as amended: let [x] be the amount the first conversion computes
    with and [y] its result. When [y] is not zero and is sent back as the
    amount of the opposite conversion, the second result differs from [x]
    by at most (0.00005 + 0.5e-16) * (1 + |rate(A) / rate(B)|). *)
Theorem C8_round_trip (pool : Pool) (q_a q_b q_amount q_back : string)
    (rowA rowB : RateRow) (y' : Decimal) :
  pool_up pool = true ->
  exchange_rates (pool_db pool) !! ToUpper q_a = Some rowA ->
  exchange_rates (pool_db pool) !! ToUpper q_b = Some rowB ->
  value (rate_to_base rowA) <> 0 -> value (rate_to_base rowB) <> 0 ->
  no_overflow (amount_of q_amount) (rate_to_base rowA) (rate_to_base rowB) = true ->
  let x := amount_of q_amount in
  let y := convert_value x (rate_to_base rowA) (rate_to_base rowB) in
  IsZero y = false ->
  NewFromString q_back = Some y' -> (toQ y' == toQ y)%Q ->
  no_overflow y' (rate_to_base rowB) (rate_to_base rowA) = true ->
  let x' := convert_value y' (rate_to_base rowB) (rate_to_base rowA) in
  response (handleConvert pool q_a q_b q_amount) =
    Json (ConvertBody (ToUpper q_a) (ToUpper q_b) x y) /\
  response (handleConvert pool q_b q_a q_back) =
    Json (ConvertBody (ToUpper q_b) (ToUpper q_a) y' x') /\
  (Qabs (toQ x' - toQ x) <=
   rounding_error * (1 + Qabs (toQ (rate_to_base rowA) / toQ (rate_to_base rowB))))%Q.
Proof.
  intros Hup HA HB HvA HvB Hno x y Hy Hs Hyy Hno' x'.
  assert (Hz' : IsZero y' = false).
  { apply IsZero_false. intros Hv0. apply IsZero_false in Hy.
    apply (toQ_nz y Hy). rewrite <- Hyy. unfold toQ. rewrite Hv0. ring. }
  pose proof (amount_of_nonzero q_back y' Hs Hz') as Ha.
  split; [apply handleConvert_found; assumption|].
  split.
  { unfold x'. rewrite <- Ha. apply handleConvert_found; try assumption.
    rewrite Ha. exact Hno'. }
  set (rA := toQ (rate_to_base rowA)). set (rB := toQ (rate_to_base rowB)).
  assert (NA : ~ (rA == 0)%Q) by (apply toQ_nz; exact HvA).
  assert (NB : ~ (rB == 0)%Q) by (apply toQ_nz; exact HvB).
  pose proof (convert_value_error x (rate_to_base rowA) (rate_to_base rowB)) as E1.
  pose proof (convert_value_error y' (rate_to_base rowB) (rate_to_base rowA)) as E2.
  fold y in E1. fold x' in E2. unfold exact_quotient in E1, E2.
  fold rA rB in E1, E2. rewrite Hyy in E2.
  assert (E : (toQ x' - toQ x ==
               (toQ x' - toQ y * rA / rB) + (toQ y - toQ x * rB / rA) * (rA / rB))%Q)
    by (field; split; assumption).
  rewrite E. eapply Qle_trans; [apply Qabs_triangle|].
  rewrite Qabs_Qmult.
  assert (H3 : (Qabs (toQ y - toQ x * rB / rA) * Qabs (rA / rB) <=
                rounding_error * Qabs (rA / rB))%Q).
  { apply Qmult_le_compat_r; [exact E1|apply Qabs_nonneg]. }
  lra.
Qed.

End ConvertClaims.

(** The codes of the example store. *)
Lemma db_example_codes (c : string) (row : RateRow) :
  exchange_rates db_example !! c = Some row -> c = "EUR" \/ c = "JPY" \/ c = "GBP".
Proof.
  unfold db_example. cbn [exchange_rates]. intros H.
  apply lookup_insert_Some in H as [[<- _]|[_ H]]; [left; reflexivity|].
  apply lookup_insert_Some in H as [[<- _]|[_ H]]; [right; left; reflexivity|].
  apply lookup_insert_Some in H as [[<- _]|[_ H]]; [right; right; reflexivity|].
  rewrite lookup_empty in H. discriminate H.
Defined.

Lemma db_example_three_bytes : three_byte_codes (exchange_rates db_example).
Proof.
  intros c row H. destruct (db_example_codes c row H) as [->|[->| ->]]; reflexivity.
Defined.

(** For C4: 100 EUR in JPY on the example store, asked for as [eur] and as
    [eur] followed by a blank; no rate is stored for [xxx]. *)
Lemma C4_conversion_contract_witness :
  pool_up pool_example = true /\
  response (@handleConvert example_runtime pool_example "eur" "jpy" "100") =
    Json (ConvertBody "EUR" "JPY" (mkDecimal 100 0) (mkDecimal 166666667 (-4))) /\
  three_byte_codes (exchange_rates (pool_db pool_example)) /\
  response (@handleConvert example_runtime pool_example "eur " "jpy" "100") =
    Json (ConvertBody "EUR " "JPY" (mkDecimal 100 0) (mkDecimal 166666667 (-4))) /\
  response (@handleConvert example_runtime pool_example "xxx" "jpy" "100") =
    HttpError "Divisa no encontrada" 404.
Proof.
  split; [reflexivity|].
  split.
  { destruct (@C4_conversion_contract example_runtime pool_example "eur" "jpy" "100" eq_refl)
      as [H _].
    destruct (H (rate_row 90000000 100) (rate_row 15000000000 100)
                ltac:(vm_compute; reflexivity) ltac:(vm_compute; reflexivity)
                ltac:(discriminate) ltac:(vm_compute; reflexivity)) as [H1 _].
    rewrite H1. vm_compute. reflexivity. }
  split; [exact db_example_three_bytes|].
  split.
  { destruct (@C4_conversion_contract example_runtime pool_example "eur " "jpy" "100" eq_refl)
      as [_ [H _]].
    destruct (H db_example_three_bytes (rate_row 90000000 100) (rate_row 15000000000 100)
                ltac:(exists "EUR"; split; vm_compute; reflexivity)
                ltac:(exists "JPY"; split; vm_compute; reflexivity)
                ltac:(discriminate) ltac:(vm_compute; reflexivity)) as [H1 _].
    rewrite H1. vm_compute. reflexivity. }
  apply (proj2 (proj2 (@C4_conversion_contract example_runtime pool_example "xxx" "jpy" "100"
                         eq_refl))).
  left. intros c row H.
  destruct (db_example_codes c row H) as [->|[->| ->]]; reflexivity.
Defined.

(** C4 as stated fails: with the stored rates 400000000 and 19999.99999999
    the quotient for the amount 1 is 0.0000499999999999999975, which
    rounded to 4 digits is 0; the handler rounds it to 16 digits first
    and answers 0.0001. *)
Lemma C4_counterexample :
  response (@handleConvert example_runtime pool_edge "aaa" "bbb" "1") =
    Json (ConvertBody "AAA" "BBB" (mkDecimal 1 0) (mkDecimal 1 (-4))) /\
  (exact_quotient (mkDecimal 1 0) (mkDecimal 40000000000000000 (-8))
     (mkDecimal 1999999999999 (-8)) == 1999999999999 # 40000000000000000)%Q /\
  (Qround_away 4 (1999999999999 # 40000000000000000) == 0)%Q.
Proof. split; [|split]; vm_compute; reflexivity. Qed.

(** For C2: 12.3456 EUR in EUR. *)
Lemma C2_conversion_identity_witness :
  pool_up pool_example = true /\
  NewFromString "12.3456" = Some (mkDecimal 123456 (-4)) /\
  response (@handleConvert example_runtime pool_example "eur" "eur" "12.3456") =
    Json (ConvertBody "EUR" "EUR" (mkDecimal 123456 (-4)) (mkDecimal 123456 (-4))).
Proof.
  split; [reflexivity|]. split; [reflexivity|].
  destruct (@C2_conversion_identity example_runtime pool_example "eur" "12.3456"
              (rate_row 90000000 100) (mkDecimal 123456 (-4)) eq_refl
              ltac:(vm_compute; reflexivity) ltac:(discriminate)
              ltac:(vm_compute; reflexivity) ltac:(vm_compute; reflexivity)
              ltac:(vm_compute; reflexivity)) as [H1 _].
  rewrite H1. vm_compute. reflexivity.
Defined.

(** C2 as stated fails: 0.00001 EUR in EUR is answered with 0. *)
Lemma C2_counterexample :
  NewFromString "0.00001" = Some (mkDecimal 1 (-5)) /\
  response (@handleConvert example_runtime pool_example "eur" "eur" "0.00001") =
    Json (ConvertBody "EUR" "EUR" (mkDecimal 1 (-5)) (mkDecimal 0 (-4))) /\
  Equal (mkDecimal 0 (-4)) (mkDecimal 1 (-5)) = false.
Proof. split; [|split]; vm_compute; reflexivity. Qed.

(** For C5: -2 EUR in JPY. *)
Lemma C5_negative_and_zero_amounts_witness :
  pool_up pool_example = true /\
  NewFromString "-2" = Some (mkDecimal (-2) 0) /\
  response (@handleConvert example_runtime pool_example "eur" "jpy" "-2") =
    Json (ConvertBody "EUR" "JPY" (mkDecimal (-2) 0) (mkDecimal (-3333333) (-4))).
Proof.
  split; [reflexivity|]. split; [reflexivity|].
  destruct (@C5_negative_and_zero_amounts example_runtime pool_example "eur" "jpy" "-2"
              (rate_row 90000000 100) (rate_row 15000000000 100) (mkDecimal (-2) 0) eq_refl
              ltac:(vm_compute; reflexivity) ltac:(vm_compute; reflexivity)
              ltac:(discriminate) ltac:(vm_compute; reflexivity)) as [H _].
  destruct (H ltac:(vm_compute; reflexivity) ltac:(vm_compute; reflexivity)) as [H1 _].
  rewrite H1. vm_compute. reflexivity.
Defined.

(** C5 as stated fails: the amount 0 from EUR to JPY is answered with the
    amount 1 and the result 166.6667, not with 0. *)
Lemma C5_counterexample :
  NewFromString "0" = Some (mkDecimal 0 0) /\
  response (@handleConvert example_runtime pool_example "eur" "jpy" "0") =
    Json (ConvertBody "EUR" "JPY" (mkDecimal 1 0) (mkDecimal 1666667 (-4))).
Proof. split; vm_compute; reflexivity. Qed.

(** For C9: the amount abc, EUR in JPY on the example store. The request
    is answered with the amount 1 and the result 166.6667. *)
Lemma C9_malformed_amount_defaulted_witness :
  NewFromString "abc" = None /\
  @handleConvert example_runtime pool_example "eur" "jpy" "abc" =
  @handleConvert example_runtime pool_example "eur" "jpy" "1" /\
  response (@handleConvert example_runtime pool_example "eur" "jpy" "abc") =
    Json (ConvertBody "EUR" "JPY" (mkDecimal 1 0) (mkDecimal 1666667 (-4))).
Proof.
  split; [reflexivity|].
  destruct (@C9_malformed_amount_defaulted example_runtime pool_example "eur" "jpy" "abc"
              (or_introl eq_refl)) as [_ [_ [H1 [H2 _]]]].
  split; [exact H1|].
  destruct (H2 (rate_row 90000000 100) (rate_row 15000000000 100) eq_refl
              ltac:(vm_compute; reflexivity) ltac:(vm_compute; reflexivity)
              ltac:(discriminate) ltac:(vm_compute; reflexivity)) as [H3 _].
  rewrite H3. vm_compute. reflexivity.
Defined.

(** For C8: 100 EUR in JPY is 16666.6667, which in EUR is 100.0000. *)
Lemma C8_round_trip_witness :
  pool_up pool_example = true /\
  NewFromString "16666.6667" = Some (mkDecimal 166666667 (-4)) /\
  response (@handleConvert example_runtime pool_example "eur" "jpy" "100") =
    Json (ConvertBody "EUR" "JPY" (mkDecimal 100 0) (mkDecimal 166666667 (-4))) /\
  response (@handleConvert example_runtime pool_example "jpy" "eur" "16666.6667") =
    Json (ConvertBody "JPY" "EUR" (mkDecimal 166666667 (-4)) (mkDecimal 1000000 (-4))).
Proof.
  split; [reflexivity|]. split; [reflexivity|].
  destruct (@C8_round_trip example_runtime pool_example "eur" "jpy" "100" "16666.6667"
              (rate_row 90000000 100) (rate_row 15000000000 100) (mkDecimal 166666667 (-4))
              eq_refl ltac:(vm_compute; reflexivity) ltac:(vm_compute; reflexivity)
              ltac:(discriminate) ltac:(discriminate) ltac:(vm_compute; reflexivity)
              ltac:(vm_compute; reflexivity) ltac:(vm_compute; reflexivity)
              ltac:(vm_compute; reflexivity) ltac:(vm_compute; reflexivity)) as [H1 [H2 _]].
  split; [rewrite H1|rewrite H2]; vm_compute; reflexivity.
Defined.

(** C8 as stated fails. 0.001 JPY in EUR is 0.0000; sent back as the
    amount, the zero is replaced by 1 and the answer is 166.6667 JPY.
    And 0.01 JPY in EUR is 0.0001, which in JPY is 0.0167. *)
Lemma C8_counterexample :
  response (@handleConvert example_runtime pool_example "jpy" "eur" "0.001") =
    Json (ConvertBody "JPY" "EUR" (mkDecimal 1 (-3)) (mkDecimal 0 (-4))) /\
  response (@handleConvert example_runtime pool_example "eur" "jpy" "0.0000") =
    Json (ConvertBody "EUR" "JPY" (mkDecimal 1 0) (mkDecimal 1666667 (-4))) /\
  response (@handleConvert example_runtime pool_example "jpy" "eur" "0.01") =
    Json (ConvertBody "JPY" "EUR" (mkDecimal 1 (-2)) (mkDecimal 1 (-4))) /\
  response (@handleConvert example_runtime pool_example "eur" "jpy" "0.0001") =
    Json (ConvertBody "EUR" "JPY" (mkDecimal 1 (-4)) (mkDecimal 167 (-4))).
Proof. repeat split; vm_compute; reflexivity. Qed.

(** A stored rate of zero for [from]: [Div] panics and nothing is
    answered. *)
Example handleConvert_zero_rate :
  response (@handleConvert example_runtime pool_edge "zzz" "aaa" "1") = Panicked.
Proof. vm_compute. reflexivity. Qed.

(* ===================================================================== *)
(** * Invariants of the store under [updateRates] and the worker          *)
(* ===================================================================== *)

Section StoreInvariants.
Context {RT : Runtime}.

(** A full cycle is the entries it keeps, applied one after the other. *)
Lemma apply_all_entries (now : Time) (l : list (string * float64)) (db : Database) :
  apply_all now l db = fold_left (apply_entry now) (applied_entries l) db.
Proof.
  unfold apply_all, statements. generalize (applied_entries l). clear l.
  intros a. revert db. induction a as [|e a IH]; intros db; [reflexivity|].
  cbn [flat_map app fold_left]. rewrite IH. reflexivity.
Qed.

(** The store after a cycle: the store before it, or the kept entries
    applied to it. *)
Lemma updateRates_cases (env : SyncEnv) (db : Database) :
  updateRates env db = db \/
  exists data, fetched env = Decoded data /\
    updateRates env db =
    fold_left (apply_entry (now env)) (applied_entries (range env (Quotes data))) db.
Proof.
  destruct (cycle_failed_or_ok env) as [Hf|Hok].
  - left. apply updateRates_failure. exact Hf.
  - right. pose proof (updateRates_ok env db Hok) as H.
    destruct Hok as [data [Hd _]]. exists data. split; [exact Hd|].
    rewrite H. unfold fully_applied. rewrite Hd. apply apply_all_entries.
Qed.

(** A property of the store kept by every step of a kept entry is kept
    by [updateRates]. *)
Lemma updateRates_invariant (P : Database -> Prop) (env : SyncEnv) (db : Database) :
  (forall now d c r, String.length c = 3%nat -> P d -> P (apply_entry now d (c, r))) ->
  P db -> P (updateRates env db).
Proof.
  intros Hstep HP. destruct (updateRates_cases env db) as [->|[data [_ ->]]]; [exact HP|].
  assert (Hlen : Forall (fun e => String.length e.1 = 3%nat)
                   (applied_entries (range env (Quotes data)))).
  { apply Forall_forall. intros [c r] Hin.
    apply applied_entries_elem in Hin as [p [_ [_ Hc]]]. exact Hc. }
  revert db HP Hlen. induction (applied_entries (range env (Quotes data))) as [|[c r] a IH];
    intros db HP Hlen; [exact HP|].
  cbn [fold_left]. apply Forall_cons in Hlen as [Hc Ha].
  apply IH; [|exact Ha]. apply Hstep; assumption.
Qed.

Lemma apply_entry_three_bytes (now : Time) (d : Database) (c : string) (r : float64) :
  String.length c = 3%nat -> codes_three_bytes d -> codes_three_bytes (apply_entry now d (c, r)).
Proof.
  intros Hc [Hr Hh]. split.
  - intros c' row. cbn. rewrite lookup_insert. case_decide as E.
    + intros _. congruence.
    + apply Hr.
  - cbn. apply Forall_app. split; [exact Hh|]. constructor; [exact Hc|constructor].
Qed.

Lemma latest_of_snoc (c : string) (history : list HistoryRow) (h : HistoryRow) :
  latest_of c (history ++ [h]) =
  if decide (currency_code h = c) then Some h else latest_of c history.
Proof.
  unfold latest_of. rewrite filter_app, filter_cons, filter_nil.
  case_decide.
  - apply last_snoc.
  - rewrite app_nil_r. reflexivity.
Qed.

Lemma apply_entry_agree (now : Time) (d : Database) (c : string) (r : float64) :
  tables_agree d -> tables_agree (apply_entry now d (c, r)).
Proof.
  intros H c'. unfold apply_entry, history_row_of, rate_row_of.
  cbn [exchange_rates rate_history fst snd].
  rewrite latest_of_snoc. cbn [currency_code]. rewrite lookup_insert.
  case_decide as E.
  - reflexivity.
  - apply H.
Qed.

(** The history before a cycle is the beginning of the history after it,
    and no current rate is removed. *)
Lemma updateRates_grows (env : SyncEnv) (db : Database) :
  rate_history db `prefix_of` rate_history (updateRates env db) /\
  dom (exchange_rates db) ⊆ dom (exchange_rates (updateRates env db)).
Proof.
  apply (updateRates_invariant
           (fun d => rate_history db `prefix_of` rate_history d /\
                     dom (exchange_rates db) ⊆ dom (exchange_rates d))).
  - intros now d c r _ [Hp Hd]. split.
    + cbn. apply prefix_app_r. exact Hp.
    + cbn. rewrite dom_insert. set_solver.
  - split; reflexivity.
Qed.

End StoreInvariants.

Section CycleComposition.
Context {RT : Runtime}.

Lemma applied_codes_written (rg : MapRange) (quotes : gmap string float64) (c : string) :
  c ∈ (applied_entries (rg quotes)).*1 <-> writes_code quotes c.
Proof.
  rewrite list_elem_of_fmap. split.
  - intros [[c' r] [-> Hin]]. apply applied_entries_elem in Hin as [p [Hp [Hc Hl]]].
    exists p, r. split; [apply range_elem in Hp; exact Hp|]. split; assumption.
  - intros [p [r [Hp [Hc Hl]]]]. exists (c, r). split; [reflexivity|].
    apply applied_entries_elem. exists p. split; [apply range_elem; exact Hp|]. split; assumption.
Qed.

(** When some kept entry has the code [c], its current rate after the
    upserts does not depend on the rates before them. *)
Lemma upsert_all_lookup_in (now : Time) (l : list (string * float64))
    (m m' : gmap string RateRow) (c : string) :
  c ∈ l.*1 -> upsert_all now l m !! c = upsert_all now l m' !! c.
Proof.
  revert m m'. induction l as [|e l IH]; intros m m' Hc; [inversion Hc|].
  cbn [upsert_all fold_left].
  fold (upsert_all now l (<[e.1 := rate_row_of now e]> m)).
  fold (upsert_all now l (<[e.1 := rate_row_of now e]> m')).
  destruct (decide (c ∈ l.*1)) as [Hin|Hnin]; [apply IH; exact Hin|].
  rewrite fmap_cons in Hc. apply elem_of_cons in Hc as [->|Hc]; [|contradiction].
  rewrite !upsert_all_lookup_other by exact Hnin. rewrite !lookup_insert_eq. reflexivity.
Qed.

(** The store after a cycle in which every step succeeds. *)
Lemma updateRates_ok_store (env : SyncEnv) (data : APIResponse) (db : Database) :
  fetched env = Decoded data -> cycle_ok env ->
  exchange_rates (updateRates env db) =
    upsert_all (now env) (applied_entries (range env (Quotes data))) (exchange_rates db) /\
  rate_history (updateRates env db) =
    rate_history db ++ map (history_row_of (now env)) (applied_entries (range env (Quotes data))).
Proof.
  intros Hf Hok. rewrite (updateRates_ok env db Hok). unfold fully_applied. rewrite Hf.
  split; [apply apply_all_rates|apply apply_all_history].
Qed.

(** The rates of a store after a cycle, whatever its outcome: those
    before it, or the upserts of the kept entries on them. *)
Lemma updateRates_rates (env : SyncEnv) (db : Database) :
  exchange_rates (updateRates env db) = exchange_rates db \/
  exists data, fetched env = Decoded data /\
    exchange_rates (updateRates env db) =
    upsert_all (now env) (applied_entries (range env (Quotes data))) (exchange_rates db).
Proof.
  destruct (cycle_failed_or_ok env) as [Hf|Hok].
  - left. rewrite (updateRates_failure env db Hf). reflexivity.
  - right. pose proof Hok as [data [Hd _]]. exists data. split; [exact Hd|].
    apply (updateRates_ok_store env data db Hd Hok).
Qed.

(** X5 (a later cycle overrides): when every step of a cycle succeeds and
    its snapshot writes every code that the snapshot of the cycle before
    it writes, the current rates after both cycles are those that the
    later cycle alone leaves, whether the earlier one failed or not. *)
Theorem X5_later_cycle_overrides (env1 env2 : SyncEnv) (data2 : APIResponse) (db : Database) :
  fetched env2 = Decoded data2 -> cycle_ok env2 ->
  (forall data1 c, fetched env1 = Decoded data1 ->
     writes_code (Quotes data1) c -> writes_code (Quotes data2) c) ->
  exchange_rates (updateRates env2 (updateRates env1 db)) =
  exchange_rates (updateRates env2 db).
Proof.
  intros Hf2 Hok2 Hsub.
  destruct (updateRates_ok_store env2 data2 (updateRates env1 db) Hf2 Hok2) as [-> _].
  destruct (updateRates_ok_store env2 data2 db Hf2 Hok2) as [-> _].
  destruct (updateRates_rates env1 db) as [->|[data1 [Hf1 ->]]]; [reflexivity|].
  apply map_eq. intros c.
  destruct (decide (c ∈ (applied_entries (range env2 (Quotes data2))).*1)) as [Hin|Hnin].
  - apply upsert_all_lookup_in. exact Hin.
  - rewrite (upsert_all_lookup_other (now env2) _ (exchange_rates db) c Hnin).
    rewrite (upsert_all_lookup_other (now env2) _ _ c Hnin).
    apply upsert_all_lookup_other. intros Hc. apply Hnin.
    apply applied_codes_written. apply (Hsub data1 c Hf1).
    apply (applied_codes_written (range env1)). exact Hc.
Qed.

Lemma applied_entries_perm (l l' : list (string * float64)) :
  l ≡ₚ l' -> applied_entries l ≡ₚ applied_entries l'.
Proof. intros H. unfold applied_entries. apply Permutation_map. rewrite H. reflexivity. Qed.

(** With distinct codes, the current rate of a written code is the rate
    of the one symbol that leaves it. *)
Lemma upsert_all_lookup_distinct (env : SyncEnv) (data : APIResponse)
    (m : gmap string RateRow) (p : string) (r : float64) :
  distinct_codes (Quotes data) ->
  Quotes data !! p = Some r -> String.length (TrimPrefix p "USD") = 3%nat ->
  upsert_all (now env) (applied_entries (range env (Quotes data))) m !! TrimPrefix p "USD" =
  Some (mkRateRow (numeric_of_float64 r) (now env)).
Proof.
  intros Hd Hp Hl.
  destruct (upsert_all_lookup (now env) (applied_entries (range env (Quotes data))) m
              (TrimPrefix p "USD")) as [[c r'] [Hin [Hc ->]]].
  { apply applied_codes_written. exists p, r. auto. }
  cbn in Hc. subst c.
  apply applied_entries_elem in Hin as [p' [Hp' [Hc' _]]]. apply range_elem in Hp'.
  assert (p' = p) by (eapply Hd; eauto). subst p'.
  unfold rate_row_of. cbn. congruence.
Qed.

(** X6 (the order of [range] does not matter): two cycles on the same
    snapshot at the same time, every step succeeding, that differ in the
    order in which [range] visits the map write the same history rows in
    some order; when no two symbols of the snapshot leave the same code
    they leave the same current rates. *)
Theorem X6_range_order_irrelevant (env1 env2 : SyncEnv) (data : APIResponse) (db : Database) :
  fetched env1 = Decoded data -> fetched env2 = Decoded data ->
  now env1 = now env2 -> cycle_ok env1 -> cycle_ok env2 ->
  rate_history (updateRates env1 db) ≡ₚ rate_history (updateRates env2 db) /\
  (distinct_codes (Quotes data) ->
   exchange_rates (updateRates env1 db) = exchange_rates (updateRates env2 db)).
Proof.
  intros Hf1 Hf2 Hnow Hok1 Hok2.
  destruct (updateRates_ok_store env1 data db Hf1 Hok1) as [Hr1 Hh1].
  destruct (updateRates_ok_store env2 data db Hf2 Hok2) as [Hr2 Hh2].
  split.
  - rewrite Hh1, Hh2, Hnow. apply Permutation_app_head, Permutation_map, applied_entries_perm.
    rewrite !range_perm. reflexivity.
  - intros Hd. rewrite Hr1, Hr2. apply map_eq. intros c.
    destruct (decide (c ∈ (applied_entries (range env1 (Quotes data))).*1)) as [Hin|Hnin].
    + apply applied_codes_written in Hin as [p [r [Hp [Hc Hl]]]]. subst c.
      rewrite (upsert_all_lookup_distinct env1 data _ p r Hd Hp Hl).
      rewrite (upsert_all_lookup_distinct env2 data _ p r Hd Hp Hl).
      rewrite Hnow. reflexivity.
    + rewrite upsert_all_lookup_other by exact Hnin.
      rewrite upsert_all_lookup_other; [reflexivity|].
      intros Hc. apply Hnin. apply applied_codes_written.
      apply (applied_codes_written (range env2)). exact Hc.
Qed.

(** X7 (a snapshot that writes nothing): when no symbol of the snapshot
    leaves a code of three bytes, as for an empty snapshot, the cycle
    leaves the store as it was, whatever the server answers. *)
Theorem X7_nothing_kept_nothing_written (env : SyncEnv) (data : APIResponse) (db : Database) :
  fetched env = Decoded data ->
  (forall c, ~ writes_code (Quotes data) c) ->
  updateRates env db = db.
Proof.
  intros Hf Hnone.
  assert (Ha : applied_entries (range env (Quotes data)) = []).
  { destruct (applied_entries (range env (Quotes data))) as [|[c r] a] eqn:E; [reflexivity|].
    exfalso. apply (Hnone c). apply (applied_codes_written (range env)).
    rewrite E. left. }
  unfold updateRates. rewrite Hf. destruct (begin_ok env); [|reflexivity].
  cbn [negb]. rewrite loop_as_statements. unfold statements. rewrite Ha.
  cbn. unfold tx_Commit. cbn. destruct (commit_ok env); reflexivity.
Qed.

End CycleComposition.

Section WorkerFacts.
Context {RT : Runtime}.

Lemma keeps_three_bytes (env : SyncEnv) (db : Database) :
  codes_three_bytes db -> codes_three_bytes (updateRates env db).
Proof.
  apply updateRates_invariant. intros now d c r Hc Hd.
  apply apply_entry_three_bytes; assumption.
Qed.

Lemma keeps_agreement (env : SyncEnv) (db : Database) :
  tables_agree db -> tables_agree (updateRates env db).
Proof.
  apply updateRates_invariant. intros now d c r _ Hd.
  apply apply_entry_agree. exact Hd.
Qed.

(** X1 (codes stay three bytes long): when every code in the two tables
    is three bytes long before a cycle, so it is after it, whatever
    happens in the cycle. *)
Theorem X1_updateRates_keeps_three_bytes (env : SyncEnv) (db : Database) :
  codes_three_bytes db -> codes_three_bytes (updateRates env db).
Proof.
  intros H3. destruct (updateRates_cases env db) as [->|[data [_ ->]]]; [exact H3|].
  assert (Hlen : Forall (fun e => String.length e.1 = 3%nat)
                   (applied_entries (range env (Quotes data)))).
  { apply Forall_forall. intros [c r] Hin.
    apply applied_entries_elem in Hin as [p [_ [_ Hc]]]. exact Hc. }
  revert db H3 Hlen.
  induction (applied_entries (range env (Quotes data))) as [|[c r] a IH]; intros db H3 Hlen;
    [exact H3|].
  apply Forall_cons in Hlen as [Hc Ha]. cbn [fold_left].
  apply IH; [|exact Ha]. apply apply_entry_three_bytes; assumption.
Qed.

(** X2 (the two tables agree): when before a cycle the current rate of
    every code is the rate and time of its history row inserted last, and
    codes without history have no current rate, the same holds after the
    cycle, whatever happens in it. *)
Theorem X2_updateRates_keeps_agreement (env : SyncEnv) (db : Database) :
  tables_agree db -> tables_agree (updateRates env db).
Proof.
  intros Hag. destruct (updateRates_cases env db) as [->|[data [_ ->]]]; [exact Hag|].
  revert db Hag.
  induction (applied_entries (range env (Quotes data))) as [|[c r] a IH]; intros db Hag;
    [exact Hag|].
  cbn [fold_left]. apply IH, apply_entry_agree, Hag.
Qed.

(** X3 (append only): after a cycle, whatever happens in it, the history
    begins with the history before it and every code that had a current
    rate still has one. *)
Theorem X3_updateRates_append_only (env : SyncEnv) (db : Database) :
  rate_history db `prefix_of` rate_history (updateRates env db) /\
  dom (exchange_rates db) ⊆ dom (exchange_rates (updateRates env db)).
Proof.
  destruct (updateRates_cases env db) as [->|[data [_ ->]]]; [split; reflexivity|].
  generalize (applied_entries (range env (Quotes data))). intros a.
  induction a as [|e a IH] using rev_ind; [split; reflexivity|].
  rewrite fold_left_app. cbn [fold_left]. destruct IH as [Hp Hd]. split.
  - cbn [apply_entry rate_history]. apply prefix_app_r. exact Hp.
  - cbn [apply_entry exchange_rates]. rewrite dom_insert. set_solver.
Qed.

Lemma worker_loop_invariant (P : Database -> Prop) :
  (forall env d, P d -> P (updateRates env d)) ->
  forall events db, P db -> P (worker_loop events db).
Proof.
  intros Hstep events. induction events as [|[env|] rest IH]; intros db HP; cbn.
  - exact HP.
  - apply IH, Hstep, HP.
  - exact HP.
Qed.

(** X4 (the worker keeps the store well-formed): from a store whose codes
    are three bytes long and whose tables agree, [startDailyWorker]
    reaches, after the first cycle and any ticks, failed or not, a store
    with the same two properties, whose history begins with the history
    at the start and in which no code has lost its current rate. A tick
    after the end of the context changes nothing. *)
Theorem X4_startDailyWorker_keeps_store (first : SyncEnv) (events later : list WorkerEvent)
    (db : Database) :
  codes_three_bytes db -> tables_agree db ->
  codes_three_bytes (startDailyWorker first events db) /\
  tables_agree (startDailyWorker first events db) /\
  rate_history db `prefix_of` rate_history (startDailyWorker first events db) /\
  dom (exchange_rates db) ⊆ dom (exchange_rates (startDailyWorker first events db)) /\
  startDailyWorker first (events ++ Done :: later) db =
    startDailyWorker first (events ++ [Done]) db.
Proof.
  intros H3 Hag. unfold startDailyWorker.
  split; [|split; [|split; [|split]]].
  - apply (worker_loop_invariant codes_three_bytes);
      [apply keeps_three_bytes|]. apply keeps_three_bytes, H3.
  - apply (worker_loop_invariant tables_agree);
      [apply keeps_agreement|]. apply keeps_agreement, Hag.
  - apply (worker_loop_invariant (fun d => rate_history db `prefix_of` rate_history d)).
    + intros env d Hd. etransitivity; [exact Hd|]. apply updateRates_grows.
    + apply updateRates_grows.
  - apply (worker_loop_invariant
             (fun d => dom (exchange_rates db) ⊆ dom (exchange_rates d))).
    + intros env d Hd. etransitivity; [exact Hd|]. apply updateRates_grows.
    + apply updateRates_grows.
  - generalize (updateRates first db). induction events as [|[env|] rest IH]; intros d; cbn.
    + reflexivity.
    + apply IH.
    + reflexivity.
Qed.

End WorkerFacts.

Lemma empty_three_bytes : codes_three_bytes empty_database.
Proof.
  split; [|constructor]. intros c row H. cbn in H. rewrite lookup_empty in H. discriminate H.
Defined.

Lemma empty_agree : tables_agree empty_database.
Proof. intros c. cbn. apply lookup_empty. Defined.

(* ===================================================================== *)
(** * More on the handlers                                                *)
(* ===================================================================== *)

Lemma prefix_append (p s : string) : String.prefix p (p ++ s) = true.
Proof.
  induction p as [|a p IH]; [destruct s; reflexivity|].
  change (String a p +:+ s) with (String a (p +:+ s)).
  cbn [String.prefix]. destruct (ascii_dec a a) as [_|Hne]; [exact IH|congruence].
Qed.

Lemma substring_all (s : string) : substring 0 (String.length s) s = s.
Proof. induction s as [|a s IH]; [reflexivity|]. cbn. rewrite IH. reflexivity. Qed.

Lemma substring_append (p s : string) :
  substring (String.length p) (String.length (p ++ s) - String.length p) (p ++ s) = s.
Proof.
  induction p as [|a p IH].
  - change (EmptyString +:+ s) with s. cbn [String.length].
    rewrite Nat.sub_0_r. apply substring_all.
  - change (String a p +:+ s) with (String a (p +:+ s)).
    cbn [String.length substring Nat.sub]. exact IH.
Qed.

(** What [strings.TrimPrefix] leaves of a string that was built with the
    prefix. *)
Lemma TrimPrefix_append (p s : string) : TrimPrefix (p ++ s) p = s.
Proof. unfold TrimPrefix. rewrite prefix_append. apply substring_append. Qed.

Section RateHandlers.
Context {RT : Runtime}.

(** The rate of a response is the stored one rounded to six digits. *)
Lemma Round6_close (d : Decimal) :
  exp (Round d 6) = -6 /\
  (Qabs (toQ (Round d 6) - toQ d) <= (1 # 2) * 10 ^ (-6))%Q /\
  (-6 <= exp d -> (toQ (Round d 6) == toQ d)%Q).
Proof.
  rewrite decimal_facts.Round_value.
  change (toQ (mkDecimal (nearest_away (toQ d * 10 ^ 6)) (- (6)))) with (Qround_away 6 (toQ d)).
  split; [reflexivity|]. split.
  - apply (decimal_facts.Qround_away_error 6).
  - intros H. apply toQ_rounds_to_itself. lia.
Qed.

(** X9 ([handleSingleRate] on a well-formed code): while the store can be
    reached, a code with a stored rate is answered with the code in upper
    case, the base USD, the time of the last update and the rate rounded
    to six digits, which is within 0.0000005 of the stored rate and equal
    to it when it has at most six fractional digits; a code without a
    stored rate is answered with 404. Either way one statement is sent. *)
Theorem X9_handleSingleRate_answers (pool : Pool) (path : string) :
  String.length (ToUpper (TrimPrefix path "/rates/")) = 3%nat ->
  pool_up pool = true ->
  let code := ToUpper (TrimPrefix path "/rates/") in
  (forall row, exchange_rates (pool_db pool) !! code = Some row ->
     handleSingleRate pool path =
       mkHandled (Json (RateBody code (Round (rate_to_base row) 6) "USD" (updated_at row)))
         [SelectRateUpdated code] /\
     exp (Round (rate_to_base row) 6) = -6 /\
     (Qabs (toQ (Round (rate_to_base row) 6) - toQ (rate_to_base row))
      <= (1 # 2) * 10 ^ (-6))%Q /\
     (-6 <= exp (rate_to_base row) ->
      (toQ (Round (rate_to_base row) 6) == toQ (rate_to_base row))%Q)) /\
  (exchange_rates (pool_db pool) !! code = None ->
   handleSingleRate pool path =
     mkHandled (HttpError "No encontrado" 404) [SelectRateUpdated code]).
Proof.
  intros Hlen Hup code. subst code. split.
  - intros row Hrow. split; [|apply Round6_close].
    unfold handleSingleRate. cbv zeta. rewrite Hlen. cbn [Nat.eqb negb].
    unfold QueryRow_rate_updated. rewrite Hup, Hrow. reflexivity.
  - intros Hnone. unfold handleSingleRate. cbv zeta. rewrite Hlen. cbn [Nat.eqb negb].
    unfold QueryRow_rate_updated. rewrite Hup, Hnone. reflexivity.
Qed.

(** X10 (case normalisation): requests whose codes agree after
    [strings.ToUpper] are handled alike, with the same response and the
    same statements: for [/rates/<code>], whose code is what follows the
    prefix, for the code of [/history] and for both codes of
    [/convert]. *)
Theorem X10_codes_read_in_upper_case (pool : Pool)
    (c1 c2 d1 d2 q_start q_end q_amount : string) :
  ToUpper c1 = ToUpper c2 -> ToUpper d1 = ToUpper d2 ->
  TrimPrefix ("/rates/" ++ c1) "/rates/" = c1 /\
  handleSingleRate pool ("/rates/" ++ c1) = handleSingleRate pool ("/rates/" ++ c2) /\
  handleHistory pool c1 q_start q_end = handleHistory pool c2 q_start q_end /\
  handleConvert pool c1 d1 q_amount = handleConvert pool c2 d2 q_amount.
Proof.
  intros Hc Hd. split; [apply TrimPrefix_append|]. split; [|split].
  - unfold handleSingleRate. rewrite !TrimPrefix_append, Hc. reflexivity.
  - unfold handleHistory. rewrite Hc. reflexivity.
  - unfold handleConvert. rewrite Hc, Hd. reflexivity.
Qed.

End RateHandlers.

Section ReadAfterCycle.
Context {RT : Runtime}.



End ReadAfterCycle.

Section LatestFacts.

Lemma append_empty (s : string) : (s ++ "")%string = s.
Proof.
  induction s as [|a s IH]; [reflexivity|].
  change (String a s +:+ "") with (String a (s +:+ "")). rewrite IH. reflexivity.
Qed.

(** A code of three characters comes back as it is. *)
Lemma bpchar3_three_characters (c : string) : utf8_characters c = 3%nat -> bpchar3 c = c.
Proof. intros H. unfold bpchar3. rewrite H. apply append_empty. Qed.

(** Codes of three bytes stay apart when padded. *)
Lemma bpchar3_three_bytes_inj (s1 s2 : string) :
  String.length s1 = 3%nat -> String.length s2 = 3%nat ->
  bpchar3 s1 = bpchar3 s2 -> s1 = s2.
Proof.
  unfold bpchar3. generalize (3 - utf8_characters s1)%nat (3 - utf8_characters s2)%nat.
  intros k1 k2 H1 H2.
  destruct s1 as [|a1 [|b1 [|c1 [|? ?]]]]; try discriminate H1.
  destruct s2 as [|a2 [|b2 [|c2 [|? ?]]]]; try discriminate H2.
  intros H. injection H as -> -> -> _. reflexivity.
Qed.

Lemma fold_insert_list_to_map {V : Type} (l : list (string * V)) :
  NoDup l.*1 ->
  fold_left (fun (m : gmap string V) kv => <[kv.1 := kv.2]> m) l ∅ = list_to_map l.
Proof.
  induction l as [|[k v] l IH] using rev_ind; intros Hnd; [reflexivity|].
  rewrite fold_left_app. cbn [fold_left fst snd].
  rewrite fmap_app in Hnd. apply NoDup_app in Hnd as [Hl [Hk _]].
  rewrite IH by exact Hl. symmetry. apply list_to_map_snoc.
  intros Hin. apply (Hk k Hin). left.
Qed.

(** The entries of the response of [handleLatest] for the rows [l]. *)
Lemma handleLatest_fold (l : list (string * RateRow)) (acc : gmap string (Decimal * Time)) :
  fold_left
    (fun (rates : gmap string (Decimal * Time)) (row : string * Decimal * Time) =>
       let '(code, rate, updated) := row in <[code := (Round rate 6, updated)]> rates)
    (map (fun cr => (bpchar3 cr.1, rate_to_base cr.2, updated_at cr.2)) l) acc =
  fold_left (fun (m : gmap string (Decimal * Time)) kv => <[kv.1 := kv.2]> m)
    ((fun cr => (bpchar3 cr.1, latest_entry cr.2)) <$> l) acc.
Proof.
  revert acc. induction l as [|[c row] l IH]; intros acc; [reflexivity|].
  cbn [map fmap list_fmap fold_left fst snd]. rewrite IH. reflexivity.
Qed.

Lemma padded_codes_NoDup (rates : gmap string RateRow) (l : list (string * RateRow)) :
  l ≡ₚ map_to_list rates ->
  (forall c row, rates !! c = Some row -> String.length c = 3%nat) ->
  NoDup ((fun cr : string * RateRow => (bpchar3 cr.1, latest_entry cr.2)) <$> l).*1.
Proof.
  intros Hperm H3. rewrite <- list_fmap_compose.
  apply NoDup_fmap_2_strong.
  - intros [c1 r1] [c2 r2] Hin1 Hin2 Heq. cbn in Heq.
    rewrite Hperm in Hin1, Hin2.
    apply elem_of_map_to_list in Hin1, Hin2.
    assert (c1 = c2) by (eapply bpchar3_three_bytes_inj; eauto). subst c2.
    congruence.
  - rewrite Hperm. apply NoDup_map_to_list.
Qed.

(** X11 ([handleLatest]): while the store can be reached and its codes
    are three bytes long, the response has the base USD and, for every
    stored code and for nothing else, under the code as the CHAR(3) column
    returns it (unchanged when it is three characters), the stored rate
    rounded to six digits and the time of its update; the order in which
    the server returns the rows makes no difference. *)
Theorem X11_handleLatest_lists_the_store (scan scan' : TableScan) (pool : Pool) :
  pool_up pool = true ->
  (forall c row, exchange_rates (pool_db pool) !! c = Some row -> String.length c = 3%nat) ->
  exists m,
    handleLatest scan pool = LatestJson "USD" m /\
    handleLatest scan' pool = LatestJson "USD" m /\
    (forall c row, exchange_rates (pool_db pool) !! c = Some row ->
       m !! bpchar3 c = Some (Round (rate_to_base row) 6, updated_at row) /\
       (utf8_characters c = 3%nat -> bpchar3 c = c)) /\
    (forall k v, m !! k = Some v ->
       exists c row, exchange_rates (pool_db pool) !! c = Some row /\
         k = bpchar3 c /\ v = (Round (rate_to_base row) 6, updated_at row)).
Proof.
  intros Hup H3.
  set (g := fun cr : string * RateRow => (bpchar3 cr.1, latest_entry cr.2)).
  set (rates := exchange_rates (pool_db pool)) in *.
  assert (Hscan : forall sc : TableScan,
            handleLatest sc pool = LatestJson "USD" (list_to_map (g <$> map_to_list rates))).
  { intros sc. unfold handleLatest, Query_rates. rewrite Hup. fold rates.
    rewrite handleLatest_fold. fold g.
    rewrite fold_insert_list_to_map by (apply (padded_codes_NoDup rates); [apply scan_perm|exact H3]).
    f_equal. apply list_to_map_proper.
    - apply (padded_codes_NoDup rates); [apply scan_perm|exact H3].
    - rewrite (scan_perm sc). reflexivity. }
  assert (Hnd : NoDup (g <$> map_to_list rates).*1)
    by (apply (padded_codes_NoDup rates); [reflexivity|exact H3]).
  exists (list_to_map (g <$> map_to_list rates)).
  split; [apply Hscan|]. split; [apply Hscan|]. split.
  - intros c row Hrow. split; [|apply bpchar3_three_characters].
    apply elem_of_list_to_map; [exact Hnd|].
    apply list_elem_of_fmap. exists (c, row). split; [reflexivity|].
    apply elem_of_map_to_list. exact Hrow.
  - intros k v Hk. apply elem_of_list_to_map in Hk; [|exact Hnd].
    apply list_elem_of_fmap in Hk as [[c row] [Heq Hin]].
    apply elem_of_map_to_list in Hin. inversion Heq; subst.
    exists c, row. auto.
Qed.

End LatestFacts.

(* ===================================================================== *)
(** * The conversion grows with the amount                                *)
(* ===================================================================== *)

Lemma Qnum_negative (q : Q) : Qnum q < 0 <-> (q < 0)%Q.
Proof. unfold Qlt. cbn. lia. Qed.

Lemma nearest_away_mono (q q' : Q) : (q <= q')%Q -> nearest_away q <= nearest_away q'.
Proof.
  intros H. unfold nearest_away.
  destruct (Qnum q <? 0) eqn:E, (Qnum q' <? 0) eqn:E'.
  - apply Z.opp_le_mono. rewrite !Z.opp_involutive. apply Qfloor_resp_le. lra.
  - apply Z.ltb_lt, Qnum_negative in E. apply Z.ltb_ge in E'.
    assert (H0 : (0 <= q')%Q) by (unfold Qle; cbn; lia).
    pose proof (Qfloor_resp_le 0 (- q + (1 # 2)) ltac:(lra)) as H1.
    pose proof (Qfloor_resp_le 0 (q' + (1 # 2)) ltac:(lra)) as H2.
    change (Qfloor 0) with 0 in H1, H2. lia.
  - apply Z.ltb_ge in E. apply Z.ltb_lt, Qnum_negative in E'.
    assert (H0 : (0 <= q)%Q) by (unfold Qle; cbn; lia). lra.
  - apply Qfloor_resp_le. lra.
Qed.

Lemma Qround_away_mono (p : Z) (q q' : Q) :
  (q <= q')%Q -> (Qround_away p q <= Qround_away p q')%Q.
Proof.
  intros H. unfold Qround_away.
  apply Qmult_le_compat_r; [|apply Qlt_le_weak, decimal_facts.pow10_pos].
  rewrite <- Zle_Qle. apply nearest_away_mono.
  apply Qmult_le_compat_r; [exact H|apply Qlt_le_weak, decimal_facts.pow10_pos].
Qed.

Lemma toQ_positive (d : Decimal) : 0 < value d -> (0 < toQ d)%Q.
Proof.
  intros H. unfold toQ. apply Qmult_lt_0_compat; [|apply decimal_facts.pow10_pos].
  unfold Qlt. cbn. lia.
Qed.

Lemma toQ_nonnegative (d : Decimal) : 0 <= value d -> (0 <= toQ d)%Q.
Proof.
  intros H. unfold toQ. apply Qmult_le_0_compat; [|apply Qlt_le_weak, decimal_facts.pow10_pos].
  unfold Qle. cbn. lia.
Qed.

(** With a positive rate of [from] and a rate of [to] that is not
    negative, the result grows with the amount. *)
Lemma convert_value_mono (a a' rF rT : Decimal) :
  0 < value rF -> 0 <= value rT -> (toQ a <= toQ a')%Q ->
  (toQ (convert_value a rF rT) <= toQ (convert_value a' rF rT))%Q.
Proof.
  intros HF HT Ha. rewrite !decimal_facts.toQ_convert_value.
  apply Qround_away_mono, Qround_away_mono. unfold exact_quotient.
  pose proof (toQ_positive rF HF) as PF. pose proof (toQ_nonnegative rT HT) as PT.
  assert (Hk : (0 <= toQ rT / toQ rF)%Q).
  { apply Qle_shift_div_l; [exact PF|]. lra. }
  assert (E : forall x, (toQ x * toQ rT / toQ rF == toQ x * (toQ rT / toQ rF))%Q).
  { intros x. field. intros H0. rewrite H0 in PF. apply (Qlt_irrefl 0). exact PF. }
  rewrite !E. apply Qmult_le_compat_r; assumption.
Qed.

Section ConvertOrder.
Context {RT : Runtime}.

(** X12 (the conversion grows with the amount): between two currencies
    with a positive stored rate of [from] and a stored rate of [to] that is
    not negative, of two requests the one with the larger amount, as
    [handleConvert] computes with them, is answered with a result that is
    not smaller. *)
Theorem X12_handleConvert_monotone (pool : Pool) (q_from q_to s1 s2 : string)
    (rowF rowT : RateRow) :
  pool_up pool = true ->
  exchange_rates (pool_db pool) !! ToUpper q_from = Some rowF ->
  exchange_rates (pool_db pool) !! ToUpper q_to = Some rowT ->
  0 < value (rate_to_base rowF) -> 0 <= value (rate_to_base rowT) ->
  no_overflow (amount_of s1) (rate_to_base rowF) (rate_to_base rowT) = true ->
  no_overflow (amount_of s2) (rate_to_base rowF) (rate_to_base rowT) = true ->
  (toQ (amount_of s1) <= toQ (amount_of s2))%Q ->
  exists y1 y2,
    response (handleConvert pool q_from q_to s1) =
      Json (ConvertBody (ToUpper q_from) (ToUpper q_to) (amount_of s1) y1) /\
    response (handleConvert pool q_from q_to s2) =
      Json (ConvertBody (ToUpper q_from) (ToUpper q_to) (amount_of s2) y2) /\
    (toQ y1 <= toQ y2)%Q.
Proof.
  intros Hup HF HT PF PT N1 N2 Hle.
  exists (convert_value (amount_of s1) (rate_to_base rowF) (rate_to_base rowT)),
         (convert_value (amount_of s2) (rate_to_base rowF) (rate_to_base rowT)).
  split; [apply handleConvert_found; try assumption; lia|].
  split; [apply handleConvert_found; try assumption; lia|].
  apply convert_value_mono; assumption.
Qed.

End ConvertOrder.

(* ===================================================================== *)
(** * A store that cannot be reached, and symbols that collide            *)
(* ===================================================================== *)

Section Unreachable.
Context {RT : Runtime}.

(** X13 (a store that cannot be reached): when no connection can be had,
    [handleConvert] answers 404 as for a currency that is not stored, and
    so does [handleSingleRate] for a code of three bytes, whatever the
    store holds; [handleHistory], for a code of three bytes, and
    [handleLatest] answer 500. *)
Theorem X13_unreachable_store (pool : Pool) (scan : TableScan)
    (q_from q_to q_amount q_code q_start q_end path : string) :
  pool_up pool = false ->
  response (handleConvert pool q_from q_to q_amount) = HttpError "Divisa no encontrada" 404 /\
  (String.length (ToUpper (TrimPrefix path "/rates/")) = 3%nat ->
   response (handleSingleRate pool path) = HttpError "No encontrado" 404) /\
  (String.length (ToUpper q_code) = 3%nat ->
   response (handleHistory pool q_code q_start q_end) = HttpError "Error interno" 500) /\
  handleLatest scan pool = LatestError "Error DB" 500.
Proof.
  intros Hdown. split; [|split; [|split]].
  - unfold handleConvert, QueryRow_rate. rewrite Hdown. reflexivity.
  - intros Hlen. unfold handleSingleRate, QueryRow_rate_updated.
    rewrite Hlen, Hdown. reflexivity.
  - intros Hlen. unfold handleHistory. rewrite Hlen. cbn [Nat.eqb negb].
    destruct (String.eqb q_start ""), (String.eqb q_end "");
      cbn [negb response]; unfold Query_history; rewrite Hdown; reflexivity.
  - unfold handleLatest, Query_rates. rewrite Hdown. reflexivity.
Qed.

(** X14 (symbols that collide): a snapshot with the symbols USDEUR and
    EUR writes the code EUR twice; after a cycle in which every step
    succeeds the current rate of EUR is the numeric of one of the two
    quotes when [range] visits the map in one order and the numeric of the
    other quote when it visits it in the opposite order. *)
Theorem X14_colliding_symbols_depend_on_order (r1 r2 : float64) (t : Time) (db : Database) :
  let quotes : gmap string float64 := <["USDEUR" := r1]> (<["EUR" := r2]> ∅) in
  let env := fun rg => mkSyncEnv (Decoded (mkAPIResponse true 0 quotes)) rg true
                         (fun _ => true) true t in
  let forward := exchange_rates (updateRates (env range_forward) db) !! "EUR" in
  let backward := exchange_rates (updateRates (env range_backward) db) !! "EUR" in
  (forward = Some (mkRateRow (numeric_of_float64 r1) t) /\
   backward = Some (mkRateRow (numeric_of_float64 r2) t)) \/
  (forward = Some (mkRateRow (numeric_of_float64 r2) t) /\
   backward = Some (mkRateRow (numeric_of_float64 r1) t)).
Proof.
  intros quotes env forward backward.
  assert (Hok : forall rg, cycle_ok (env rg)).
  { intros rg. exists (mkAPIResponse true 0 quotes).
    split; [reflexivity|]. split; [reflexivity|]. split; [reflexivity|].
    intros i _. reflexivity. }
  assert (Hst : forall rg, exchange_rates (updateRates (env rg) db) =
                  upsert_all t (applied_entries (rg quotes)) (exchange_rates db)).
  { intros rg.
    apply (updateRates_ok_store (env rg) (mkAPIResponse true 0 quotes) db eq_refl (Hok rg)). }
  unfold forward, backward. rewrite !Hst.
  change (range_of range_backward quotes) with (rev (range_of range_forward quotes)).
  destruct (range_two range_forward "USDEUR" "EUR" r1 r2 ltac:(discriminate)) as [H|H];
    fold quotes in H; rewrite H; cbn [rev app];
    rewrite !applied_entries_cons;
    change (kept ("USDEUR", r1)) with true; change (kept ("EUR", r2)) with true;
    change (applied_entries []) with (@nil (string * float64));
    cbn [upsert_all fold_left fst snd];
    change (TrimPrefix "USDEUR" "USD") with "EUR"; change (TrimPrefix "EUR" "USD") with "EUR";
    rewrite !lookup_insert_eq; [right|left]; split; reflexivity.
Qed.

End Unreachable.

(* ===================================================================== *)
(** * The properties above on the examples                                *)
(* ===================================================================== *)

Lemma distinct_eur_jpy : @distinct_codes example_runtime quotes_eur_jpy.
Proof.
  intros p p' r r' Hp Hp' Heq. unfold quotes_eur_jpy in Hp, Hp'.
  apply lookup_insert_Some in Hp as [[<- _]|[_ Hp]];
    [|apply lookup_insert_Some in Hp as [[<- _]|[_ Hp]];
      [|rewrite lookup_empty in Hp; discriminate Hp]];
  (apply lookup_insert_Some in Hp' as [[<- _]|[_ Hp']];
    [|apply lookup_insert_Some in Hp' as [[<- _]|[_ Hp']];
      [|rewrite lookup_empty in Hp'; discriminate Hp']]);
  first [reflexivity|discriminate Heq].
Defined.

Lemma example_three_bytes :
  forall c row, exchange_rates (pool_db pool_example) !! c = Some row -> String.length c = 3%nat.
Proof.
  intros c row H. cbn in H.
  apply lookup_insert_Some in H as [[<- _]|[_ H]]; [reflexivity|].
  apply lookup_insert_Some in H as [[<- _]|[_ H]]; [reflexivity|].
  apply lookup_insert_Some in H as [[<- _]|[_ H]]; [reflexivity|].
  rewrite lookup_empty in H. discriminate H.
Defined.

(** For X1: the cycle of EUR and JPY on the empty store. *)
Lemma X1_updateRates_keeps_three_bytes_witness :
  codes_three_bytes empty_database /\ codes_three_bytes db_after_cycle.
Proof.
  split; [exact empty_three_bytes|].
  exact (@X1_updateRates_keeps_three_bytes example_runtime env_eur_jpy empty_database
           empty_three_bytes).
Defined.

(** For X2: the same cycle. *)
Lemma X2_updateRates_keeps_agreement_witness :
  tables_agree empty_database /\ tables_agree db_after_cycle.
Proof.
  split; [exact empty_agree|].
  exact (@X2_updateRates_keeps_agreement example_runtime env_eur_jpy empty_database empty_agree).
Defined.

(** For X4: a first cycle that fails, a tick that succeeds, the end of
    the context and a tick after it. *)
Lemma X4_startDailyWorker_keeps_store_witness :
  codes_three_bytes empty_database /\ tables_agree empty_database /\
  tables_agree
    (@startDailyWorker example_runtime env_second_fails [Tick env_eur_jpy; Done] empty_database) /\
  @startDailyWorker example_runtime env_second_fails
    ([Tick env_eur_jpy] ++ Done :: [Tick env_second_fails]) empty_database =
  @startDailyWorker example_runtime env_second_fails
    ([Tick env_eur_jpy] ++ [Done]) empty_database.
Proof.
  split; [exact empty_three_bytes|]. split; [exact empty_agree|].
  split.
  - exact (proj1 (proj2
             (@X4_startDailyWorker_keeps_store example_runtime env_second_fails
                [Tick env_eur_jpy; Done] [] empty_database empty_three_bytes empty_agree))).
  - exact (proj2 (proj2 (proj2 (proj2
             (@X4_startDailyWorker_keeps_store example_runtime env_second_fails
                [Tick env_eur_jpy] [Tick env_second_fails] empty_database
                empty_three_bytes empty_agree))))).
Defined.

(** The snapshot of EUR and JPY writes every code that the snapshot of
    the day before writes. *)
Lemma earlier_codes_written (c : string) :
  @writes_code example_runtime quotes_earlier c ->
  @writes_code example_runtime quotes_eur_jpy c.
Proof.
  intros [p [r [Hp [Hc Hlen]]]]. unfold quotes_earlier in Hp.
  apply lookup_insert_Some in Hp as [[<- _]|[_ Hp]].
  - exists "USDEUR", 0.9%Q. split; [reflexivity|]. split; assumption.
  - apply lookup_insert_Some in Hp as [[<- _]|[_ Hp]].
    + exists "USDJPY", 150%Q. split; [reflexivity|]. split; assumption.
    + rewrite lookup_empty in Hp. discriminate Hp.
Defined.

(** For X5: the cycle of the day before succeeds and stores EUR at 0.85
    and JPY at 140; the cycle after it stores 0.9 and 150, and the current
    rates are those it leaves on the store that never saw the earlier
    cycle. *)
Lemma X5_later_cycle_overrides_witness :
  @cycle_ok example_runtime env_eur_jpy /\
  exchange_rates (@updateRates example_runtime env_earlier db_example) =
    <["EUR" := rate_row 85000000 1699913600000000]>
      (<["JPY" := rate_row 14000000000 1699913600000000]>
         (<["GBP" := rate_row 80000000 100]> ∅)) /\
  exchange_rates
    (@updateRates example_runtime env_eur_jpy
       (@updateRates example_runtime env_earlier db_example)) =
  exchange_rates (@updateRates example_runtime env_eur_jpy db_example) /\
  exchange_rates (@updateRates example_runtime env_eur_jpy db_example) =
    <["EUR" := rate_row 90000000 1700000000000000]>
      (<["JPY" := rate_row 15000000000 1700000000000000]>
         (<["GBP" := rate_row 80000000 100]> ∅)).
Proof.
  split; [apply env_ok_cycle_ok|].
  split; [vm_compute; reflexivity|].
  split; [|vm_compute; reflexivity].
  apply (@X5_later_cycle_overrides example_runtime env_earlier env_eur_jpy
           (response_of true quotes_eur_jpy) db_example eq_refl
           (env_ok_cycle_ok range_in_order quotes_eur_jpy true)).
  intros data1 c Hf Hw. injection Hf as <-. apply earlier_codes_written. exact Hw.
Defined.

(** For X6: the snapshot of EUR and JPY visited in both orders. *)
Lemma X6_range_order_irrelevant_witness :
  @cycle_ok example_runtime (env_ok range_reversed quotes_eur_jpy true) /\
  @distinct_codes example_runtime quotes_eur_jpy /\
  exchange_rates (@updateRates example_runtime env_eur_jpy db_example) =
  exchange_rates
    (@updateRates example_runtime (env_ok range_reversed quotes_eur_jpy true) db_example).
Proof.
  split; [apply env_ok_cycle_ok|]. split; [exact distinct_eur_jpy|].
  exact (proj2
           (@X6_range_order_irrelevant example_runtime env_eur_jpy
              (env_ok range_reversed quotes_eur_jpy true) (response_of true quotes_eur_jpy)
              db_example eq_refl eq_refl eq_refl
              (env_ok_cycle_ok range_in_order quotes_eur_jpy true)
              (env_ok_cycle_ok range_reversed quotes_eur_jpy true))
           distinct_eur_jpy).
Defined.

(** For X7: the empty snapshot on the example store. *)
Lemma X7_nothing_kept_nothing_written_witness :
  (forall c, ~ @writes_code example_runtime ∅ c) /\
  @updateRates example_runtime (env_ok range_in_order ∅ true) db_example = db_example.
Proof.
  assert (H : forall c, ~ @writes_code example_runtime ∅ c).
  { intros c [p [r [Hp _]]]. rewrite lookup_empty in Hp. discriminate Hp. }
  split; [exact H|].
  exact (@X7_nothing_kept_nothing_written example_runtime (env_ok range_in_order ∅ true)
           (response_of true ∅) db_example eq_refl H).
Defined.


(** Outside X8: the symbol USDeur is stored under [eur], and the request
    [/rates/eur] asks for [EUR], which is not stored. *)
Example lower_case_code_not_read_back :
  exchange_rates
    (@updateRates example_runtime (env_ok range_in_order quotes_lower true) empty_database)
    !! "eur" = Some (rate_row 90000000 1700000000000000) /\
  @handleSingleRate example_runtime
    (mkPool (@updateRates example_runtime (env_ok range_in_order quotes_lower true)
               empty_database) true)
    "/rates/eur" =
    mkHandled (HttpError "No encontrado" 404) [SelectRateUpdated "EUR"].
Proof. split; vm_compute; reflexivity. Qed.

(** For X9: [/rates/eur] and [/rates/chf] on the example store. *)
Lemma X9_handleSingleRate_answers_witness :
  pool_up pool_example = true /\
  @handleSingleRate example_runtime pool_example "/rates/eur" =
    mkHandled (Json (RateBody "EUR" (mkDecimal 900000 (-6)) "USD" 100))
      [SelectRateUpdated "EUR"].
Proof.
  split; [reflexivity|].
  destruct (@X9_handleSingleRate_answers example_runtime pool_example "/rates/eur"
              eq_refl eq_refl) as [H _].
  destruct (H (rate_row 90000000 100) ltac:(vm_compute; reflexivity)) as [H1 _].
  rewrite H1. vm_compute. reflexivity.
Defined.

(** For X10: eur and EUR, jpy and JPY. *)
Lemma X10_codes_read_in_upper_case_witness :
  @ToUpper example_runtime "eur" = @ToUpper example_runtime "EUR" /\
  @handleSingleRate example_runtime pool_example "/rates/eur" =
  @handleSingleRate example_runtime pool_example "/rates/EUR" /\
  @handleConvert example_runtime pool_example "eur" "jpy" "2" =
  @handleConvert example_runtime pool_example "EUR" "JPY" "2".
Proof.
  split; [reflexivity|].
  destruct (@X10_codes_read_in_upper_case example_runtime pool_example
              "eur" "EUR" "jpy" "JPY" "" "" "2" eq_refl eq_refl) as [_ [H1 [_ H2]]].
  split; [exact H1|exact H2].
Defined.

(** For X11: the example store scanned in both orders. *)
Lemma X11_handleLatest_lists_the_store_witness :
  pool_up pool_example = true /\
  handleLatest scan_reversed pool_example = handleLatest scan_in_order pool_example.
Proof.
  split; [reflexivity|].
  destruct (X11_handleLatest_lists_the_store scan_in_order scan_reversed pool_example
              eq_refl example_three_bytes) as [m [H1 [H2 _]]].
  rewrite H1, H2. reflexivity.
Defined.

(** For X12: 1 EUR and 2 EUR in JPY. *)
Lemma X12_handleConvert_monotone_witness :
  pool_up pool_example = true /\
  (toQ (amount_of "1") <= toQ (amount_of "2"))%Q /\
  exists y1 y2,
    response (@handleConvert example_runtime pool_example "eur" "jpy" "1") =
      Json (ConvertBody "EUR" "JPY" (amount_of "1") y1) /\
    response (@handleConvert example_runtime pool_example "eur" "jpy" "2") =
      Json (ConvertBody "EUR" "JPY" (amount_of "2") y2) /\
    (toQ y1 <= toQ y2)%Q.
Proof.
  split; [reflexivity|].
  assert (H : (toQ (amount_of "1") <= toQ (amount_of "2"))%Q) by (vm_compute; discriminate).
  split; [exact H|].
  exact (@X12_handleConvert_monotone example_runtime pool_example "eur" "jpy" "1" "2"
           (rate_row 90000000 100) (rate_row 15000000000 100) eq_refl
           ltac:(vm_compute; reflexivity) ltac:(vm_compute; reflexivity)
           ltac:(reflexivity) ltac:(discriminate)
           ltac:(vm_compute; reflexivity) ltac:(vm_compute; reflexivity) H).
Defined.

(** For X13: the example store without a connection. *)
Lemma X13_unreachable_store_witness :
  pool_up (mkPool db_example false) = false /\
  response (@handleConvert example_runtime (mkPool db_example false) "eur" "jpy" "1") =
    HttpError "Divisa no encontrada" 404.
Proof.
  split; [reflexivity|].
  exact (proj1 (@X13_unreachable_store example_runtime (mkPool db_example false) scan_in_order
                  "eur" "jpy" "1" "eur" "" "" "/rates/eur" eq_refl)).
Defined.
